(** * The frame/block container of the-lz4-library (src/src/lz4.c)

    A shallow embedding of the container code of [lz4.c]: descriptor tables,
    [lz4_check_header], session construction ([_lz4_init],
    [_lz4_init_decompress]), the block codec ([lz4_compress],
    [lz4_compress_block], [lz4_decompress]) and [lz4_finish].

    The vendored block compressor (impl/lz4.c, impl/lz4hc.c) and the hash
    (impl/xxhash.c) are consumed through interfaces, exactly the functions
    [lz4.c] calls.

    Conventions of the embedding:
    - [uint32_t] and [int] values are integers of [Z]; every conversion the C
      code performs is written out with [to_uint32] and [to_int];
    - a pointer to bytes is the list of bytes readable from that address; a
      read that leaves the buffer is undefined in C and makes the embedded
      function return [None];
    - a destination buffer is returned as the list of bytes the call has
      stored from its start;
    - [write_little_endian_32] and [read_little_endian_32] are raw 32-bit
      stores and loads in the source; the embedding fixes a little-endian
      host, as their names promise. *)

From Stdlib Require Import ZArith List Bool Lia.
From Stdlib Require Import Init.Byte Strings.Byte.
Import ListNotations.

Local Open Scope Z_scope.

(** ** Machine integers *)

Definition to_uint32 (z : Z) : Z := z mod 2 ^ 32.

Definition to_int (z : Z) : Z :=
  let u := z mod 2 ^ 32 in
  if u <? 2 ^ 31 then u else u - 2 ^ 32.

(** ** Bytes and buffers *)

Definition Z_of_byte (b : byte) : Z := Z.of_N (Byte.to_N b).

Definition byte_of_Z (z : Z) : byte :=
  match Byte.of_N (Z.to_N (z mod 256)) with
  | Some b => b
  | None => x00
  end.

Definition len (p : list byte) : Z := Z.of_nat (length p).

(** [load p off n]: the [n] bytes at [p + off], when they lie inside the
    buffer. *)
Definition load (p : list byte) (off n : Z) : option (list byte) :=
  if (0 <=? off) && (0 <=? n) && (off + n <=? len p)
  then Some (firstn (Z.to_nat n) (skipn (Z.to_nat off) p))
  else None.

(** lz4.c:75 *)
Definition write_little_endian_32 (v : Z) : list byte :=
  [ byte_of_Z v;
    byte_of_Z (Z.shiftr v 8);
    byte_of_Z (Z.shiftr v 16);
    byte_of_Z (Z.shiftr v 24) ].

(** lz4.c:79 *)
Definition read_little_endian_32 (p : list byte) : option Z :=
  match p with
  | b0 :: b1 :: b2 :: b3 :: _ =>
      Some (Z_of_byte b0 + Z.shiftl (Z_of_byte b1) 8
            + Z.shiftl (Z_of_byte b2) 16 + Z.shiftl (Z_of_byte b3) 24)
  | _ => None
  end.

(** ** Descriptor tables (lz4.c:26-44) *)

Definition _64kb : list byte := [x04; x22; x4d; x18; x60; x40; x82].
Definition c_64kb : list byte := [x04; x22; x4d; x18; x64; x40; xa7].
Definition b_64kb : list byte := [x04; x22; x4d; x18; x70; x40; xad].
Definition cb_64kb : list byte := [x04; x22; x4d; x18; x74; x40; xbd].

Definition _256kb : list byte := [x04; x22; x4d; x18; x60; x50; xfb].
Definition c_256kb : list byte := [x04; x22; x4d; x18; x64; x50; x08].
Definition b_256kb : list byte := [x04; x22; x4d; x18; x70; x50; x84].
Definition cb_256kb : list byte := [x04; x22; x4d; x18; x74; x50; xff].

Definition _1mb : list byte := [x04; x22; x4d; x18; x60; x60; x51].
Definition c_1mb : list byte := [x04; x22; x4d; x18; x64; x60; x85].
Definition b_1mb : list byte := [x04; x22; x4d; x18; x70; x60; x33].
Definition cb_1mb : list byte := [x04; x22; x4d; x18; x74; x60; xd9].

Definition _4mb : list byte := [x04; x22; x4d; x18; x60; x70; x73].
Definition c_4mb : list byte := [x04; x22; x4d; x18; x64; x70; xb9].
Definition b_4mb : list byte := [x04; x22; x4d; x18; x70; x70; x72].
Definition cb_4mb : list byte := [x04; x22; x4d; x18; x74; x70; x8e].

(** The sixteen catalogued descriptors. *)
Definition descriptor_table : list (list byte) :=
  [ _64kb; c_64kb; b_64kb; cb_64kb;
    _256kb; c_256kb; b_256kb; cb_256kb;
    _1mb; c_1mb; b_1mb; cb_1mb;
    _4mb; c_4mb; b_4mb; cb_4mb ].

(** The fixed magic prefix: the first four bytes of every table entry. *)
Definition magic : list byte := [x04; x22; x4d; x18].

(** The sixteen three-byte suffixes of the catalogue. *)
Definition suffix_table : list (list byte) := map (skipn 4) descriptor_table.

(** lz4.h:24 *)
Inductive lz4_block_size_t : Type := s64kb | s256kb | s1mb | s4mb.

(** lz4.h:35 *)
Record lz4_header_t : Type := mk_header {
  h_block_size : Z;
  h_compressed_size : Z;
  h_size : lz4_block_size_t;
  h_block_checksum : bool;
  h_content_checksum : bool;
  h_header : list byte
}.

(** [h[i]]: the source indexes the header only after [header_size != 7] has
    been excluded; outside the buffer the read is undefined and the
    embedding yields [x00]. *)
Definition idx (h : list byte) (i : nat) : byte := nth i h x00.

Definition neb (a b : byte) : bool := negb (Byte.eqb a b).

(** The four-way inner test of each size class of [lz4_check_header]:
    the pair of flags and the table entry selected by [h[4]] and [h[6]]. *)
Definition select_flags (h plain b c cb : list byte)
  : option (bool * bool * list byte) :=
  if Byte.eqb (idx h 4) (idx plain 4) && Byte.eqb (idx h 6) (idx plain 6)
  then Some (false, false, plain)
  else if Byte.eqb (idx h 4) (idx b 4) && Byte.eqb (idx h 6) (idx b 6)
  then Some (true, false, b)
  else if Byte.eqb (idx h 4) (idx c 4) && Byte.eqb (idx h 6) (idx c 6)
  then Some (false, true, c)
  else if Byte.eqb (idx h 4) (idx cb 4) && Byte.eqb (idx h 6) (idx cb 6)
  then Some (true, true, cb)
  else None.

(** ** The external collaborators

    [lz4.c] includes the vendored compressor and hash and calls the functions
    below.  Each field has the arguments of the C function: a byte pointer is
    the buffer readable from it, sizes are the [int] values passed.  A
    compressor returns its [int] result, the bytes it stored at [dst] and the
    stream state it leaves behind; [LZ4_decompress_safe] returns its result
    and the bytes it stored at [dst].  [stream_ok] and [streamHC_ok] single
    out the properly initialised stream states for which the library makes
    its promises. *)

Class LZ4Lib : Type := {
  LZ4_stream_t : Type;
  LZ4_streamHC_t : Type;
  (* constants and macros of lz4.h / lz4hc.h *)
  LZ4HC_CLEVEL_MIN : Z;
  LZ4_compressBound : Z -> Z;
  (* fast mode *)
  LZ4_initStream : LZ4_stream_t;
  LZ4_attach_dictionary : LZ4_stream_t -> LZ4_stream_t;
  LZ4_compress_fast_extState_fastReset :
    LZ4_stream_t -> list byte -> Z -> Z -> Z -> Z * list byte * LZ4_stream_t;
  (* high-effort mode *)
  LZ4_initStreamHC : LZ4_streamHC_t;
  LZ4_setCompressionLevel : LZ4_streamHC_t -> Z -> LZ4_streamHC_t;
  LZ4_resetStreamHC_fast : LZ4_streamHC_t -> Z -> LZ4_streamHC_t;
  LZ4_attach_HC_dictionary : LZ4_streamHC_t -> LZ4_streamHC_t;
  LZ4_compress_HC_extStateHC_fastReset :
    LZ4_streamHC_t -> list byte -> Z -> Z -> Z -> Z * list byte * LZ4_streamHC_t;
  (* decoder *)
  LZ4_decompress_safe : list byte -> Z -> Z -> Z * list byte;
  (* properly initialised states *)
  stream_ok : LZ4_stream_t -> Prop;
  streamHC_ok : LZ4_streamHC_t -> Prop
}.

(** The hash takes the bytes of [[input, input + len)]. *)
Class XXHashLib : Type := {
  XXH32_state_t : Type;
  XXH32 : list byte -> Z -> Z;
  XXH32_reset : Z -> XXH32_state_t;
  XXH32_update : XXH32_state_t -> list byte -> XXH32_state_t;
  XXH32_digest : XXH32_state_t -> Z
}.

Notation "x <- e ;; k" :=
  (match e with Some x => k | None => None end)
  (at level 61, e at next level, right associativity, only parsing).
Notation "' p <- e ;; k" :=
  (match e with Some p => k | None => None end)
  (at level 61, p pattern, e at next level, right associativity, only parsing).

Section Container.

Context {L : LZ4Lib} {X : XXHashLib}.

(** lz4.c:199.  [r] is the record behind the result pointer ([None] for a
    null pointer); the result is [None] where the source returns [false]
    and the updated record where it returns [true].  The source never
    stores the local [size] into [r], so [h_size] keeps the value it had. *)
Definition lz4_check_header (r : option lz4_header_t) (header : list byte)
    (header_size : Z) : option lz4_header_t :=
  match r with
  | None => None
  | Some r0 =>
    if negb (header_size =? 7) then None
    else
      let h := header in
      if neb (idx h 0) (idx _64kb 0) || neb (idx h 1) (idx _64kb 1)
         || neb (idx h 2) (idx _64kb 2) || neb (idx h 3) (idx _64kb 3)
      then None
      else
        let sel :=
          if Byte.eqb (idx h 5) x40 then
            option_map (pair (64 * 1024))
              (select_flags h _64kb b_64kb c_64kb cb_64kb)
          else if Byte.eqb (idx h 5) x50 then
            option_map (pair (256 * 1024))
              (select_flags h _256kb b_256kb c_256kb cb_256kb)
          else if Byte.eqb (idx h 5) x60 then
            option_map (pair (1024 * 1024))
              (select_flags h _1mb b_1mb c_1mb cb_1mb)
          else if Byte.eqb (idx h 5) x70 then
            option_map (pair (4 * 1024 * 1024))
              (select_flags h _4mb b_4mb c_4mb cb_4mb)
          else None in
        match sel with
        | None => None
        | Some (block_size, (block_checksum, content_checksum, headerp)) =>
            let compressed_size := to_uint32 (LZ4_compressBound block_size) in
            Some {| h_block_size := block_size;
                    h_compressed_size := compressed_size;
                    h_size := h_size r0;
                    h_block_checksum := block_checksum;
                    h_content_checksum := content_checksum;
                    h_header := headerp |}
        end
  end.

(** The compressor working memory behind [void *ctx]. *)
Inductive ctx_t : Type :=
| ctx_fast (s : LZ4_stream_t)
| ctx_hc (s : LZ4_streamHC_t).

(** lz4.c:46.  [header] points into the descriptor tables; [ctx] is [None]
    for the null pointer of a decompression session. *)
Record lz4_s : Type := mk_lz4 {
  size : lz4_block_size_t;
  content_checksum : bool;
  block_checksum : bool;
  level : Z;
  header : list byte;
  header_size : Z;
  block_size : Z;
  compressed_size : Z;
  block_header_size : Z;
  xxh : XXH32_state_t;
  ctx : option ctx_t
}.

Definition set_xxh (l : lz4_s) (x : XXH32_state_t) : lz4_s :=
  mk_lz4 (size l) (content_checksum l) (block_checksum l) (level l)
         (header l) (header_size l) (block_size l) (compressed_size l)
         (block_header_size l) x (ctx l).

Definition set_ctx (l : lz4_s) (c : ctx_t) : lz4_s :=
  mk_lz4 (size l) (content_checksum l) (block_checksum l) (level l)
         (header l) (header_size l) (block_size l) (compressed_size l)
         (block_header_size l) (xxh l) (Some c).

(** lz4.c:62 *)
Definition lz4_get_header (r : lz4_s) : list byte * Z :=
  (header r, header_size r).

(** lz4.c:67 *)
Definition lz4_block_size (r : lz4_s) : Z := block_size r.

(** lz4.c:69 *)
Definition lz4_block_header_size (r : lz4_s) : Z := block_header_size r.

(** lz4.c:71 *)
Definition lz4_compressed_size (r : lz4_s) : Z :=
  to_uint32 (compressed_size r + block_header_size r).

(** lz4.c:83.  Undefined ([None]) when [ctx] is null or does not hold the
    stream type the level selects. *)
Definition lz4_compress (l : lz4_s) (src : list byte) (src_len dest_len : Z)
  : option (Z * list byte * lz4_s) :=
  let level := level l in
  c <- ctx l ;;
  if level <? LZ4HC_CLEVEL_MIN then
    match c with
    | ctx_fast s =>
        let s := LZ4_attach_dictionary s in
        let acceleration := if level <? 0 then - level + 1 else 1 in
        let '(n, out, s) :=
          LZ4_compress_fast_extState_fastReset
            s src (to_int src_len) (to_int dest_len) acceleration in
        Some (to_uint32 n, out, set_ctx l (ctx_fast s))
    | ctx_hc _ => None
    end
  else
    match c with
    | ctx_hc s =>
        let s := LZ4_resetStreamHC_fast s level in
        let s := LZ4_attach_HC_dictionary s in
        let '(n, out, s) :=
          LZ4_compress_HC_extStateHC_fastReset
            s src (to_int src_len) (to_int dest_len) level in
        Some (to_uint32 n, out, set_ctx l (ctx_hc s))
    | ctx_fast _ => None
    end.

(** lz4.c:104.  [dest] is the buffer at [dest]; the result is the returned
    [int] and the bytes stored. *)
Definition lz4_finish (l : lz4_s) (dest : list byte)
  : option (Z * list byte) :=
  match ctx l with
  | Some _ =>
      if content_checksum l then
        let crc := to_uint32 (XXH32_digest (xxh l)) in
        Some (8, write_little_endian_32 0 ++ write_little_endian_32 crc)
      else Some (4, write_little_endian_32 0)
  | None =>
      if content_checksum l then
        let crc := to_uint32 (XXH32_digest (xxh l)) in
        content_crc <- read_little_endian_32 dest ;;
        if negb (crc =? content_crc) then Some (-500, [])
        else Some (0, [])
      else Some (0, [])
  end.

(** lz4.c:154-161, the block-checksum guard of [lz4_decompress]:
    [inl (-500)] where the source returns, [inr src_len] with the shrunk
    length where it goes on. *)
Definition check_block_checksum (l : lz4_s) (src : list byte) (src_len : Z)
  : option (Z + Z) :=
  if block_checksum l then
    trailer <- load src (src_len - 4) 4 ;;
    checksum <- read_little_endian_32 trailer ;;
    body <- load src 0 (to_uint32 (src_len - 4)) ;;
    let crc32 := to_uint32 (XXH32 body 0) in
    if negb (crc32 =? checksum) then Some (inl (-500))
    else Some (inr (to_uint32 (src_len - 4)))
  else Some (inr src_len).

(** lz4.c:163-172, the rest of [lz4_decompress]. *)
Definition decompress_payload (l : lz4_s) (src : list byte)
    (src_len dest_len : Z) (compressed : bool)
  : option (Z * list byte * lz4_s) :=
  ' (r, dest) <-
     (if compressed
      then Some (LZ4_decompress_safe src (to_int src_len) (to_int dest_len))
      else (copied <- load src 0 src_len ;; Some (to_int src_len, copied))) ;;
  if r <? 0 then Some (r, dest, l)
  else if content_checksum l then
    produced <- load dest 0 r ;;
    Some (r, dest, set_xxh l (XXH32_update (xxh l) produced))
  else Some (r, dest, l).

(** lz4.c:152.  The result is the returned [int], the bytes stored at
    [dest] and the session afterwards. *)
Definition lz4_decompress (l : lz4_s) (src : list byte)
    (src_len dest_len : Z) (compressed : bool)
  : option (Z * list byte * lz4_s) :=
  g <- check_block_checksum l src src_len ;;
  match g with
  | inl e => Some (e, [], l)
  | inr src_len => decompress_payload l src src_len dest_len compressed
  end.

(** lz4.c:175.  The result is the returned [uint32_t], the bytes of
    [dest[0, result)] and the session afterwards; these bytes are
    indeterminate ([None]) when the compressor counts more bytes than it
    stored. *)
Definition lz4_compress_block (l : lz4_s) (src : list byte)
    (src_len dest_len : Z) : option (Z * list byte * lz4_s) :=
  l <- (if content_checksum l
        then (bytes <- load src 0 src_len ;;
              Some (set_xxh l (XXH32_update (xxh l) bytes)))
        else Some l) ;;
  ' (compressed_size, out, l) <-
     lz4_compress l src src_len (to_uint32 (dest_len - block_header_size l)) ;;
  ' (compressed_size, field, payload) <-
     (if src_len <=? compressed_size then
        raw <- load src 0 src_len ;;
        Some (src_len,
              write_little_endian_32 (Z.lor src_len 0x80000000), raw)
      else
        stored <- load out 0 compressed_size ;;
        Some (compressed_size,
              write_little_endian_32 compressed_size, stored)) ;;
  let trailer :=
    if block_checksum l then
      let crc32 := to_uint32 (XXH32 payload 0) in
      write_little_endian_32 crc32
    else [] in
  Some (to_uint32 (compressed_size + block_header_size l),
        field ++ payload ++ trailer, l).

(** lz4.c:312.  [h] is the uninitialised local header record and [heap] the
    content of the freshly allocated hash state. *)
Definition _lz4_init_decompress (h : lz4_header_t) (heap : XXH32_state_t)
    (header : list byte) (header_size : Z) : option lz4_s :=
  h <- lz4_check_header (Some h) header header_size ;;
  Some {| ctx := None;
          level := 1;
          block_size := h_block_size h;
          compressed_size := h_compressed_size h;
          size := h_size h;
          content_checksum := h_content_checksum h;
          block_checksum := h_block_checksum h;
          block_header_size := if h_block_checksum h then 4 else 0;
          header := h_header h;
          header_size := 7;
          xxh := if h_content_checksum h then XXH32_reset 0 else heap |}.

(** lz4.c:342.  [heap] is the hash state the freshly allocated memory
    holds: the source leaves the accumulator as allocated.  Memory that is no
    state of the hash has no [heap]; there the first [XXH32_update] of a
    session with the content-checksum flag is undefined, and nothing is
    stated about such a session (see [XXH32_initialised]).  The final
    [return NULL] of the source is out of reach for the four enumerators. *)
Definition _lz4_init (heap : XXH32_state_t) (level : Z)
    (size : lz4_block_size_t) (block_checksum content_checksum : bool)
  : lz4_s :=
  let '(header, block_size) :=
    match size with
    | s64kb =>
        (if negb content_checksum
         then (if block_checksum then b_64kb else _64kb)
         else (if block_checksum then cb_64kb else c_64kb),
         64 * 1024)
    | s256kb =>
        (if negb content_checksum
         then (if block_checksum then b_256kb else _256kb)
         else (if block_checksum then cb_256kb else c_256kb),
         256 * 1024)
    | s1mb =>
        (if negb content_checksum
         then (if block_checksum then b_1mb else _1mb)
         else (if block_checksum then cb_1mb else c_1mb),
         1024 * 1024)
    | s4mb =>
        (if negb content_checksum
         then (if block_checksum then b_4mb else _4mb)
         else (if block_checksum then cb_4mb else c_4mb),
         4 * 1024 * 1024)
    end in
  let compressed_size := to_uint32 (LZ4_compressBound block_size) in
  {| ctx := Some (if level <? LZ4HC_CLEVEL_MIN
                  then ctx_fast LZ4_initStream
                  else ctx_hc (LZ4_setCompressionLevel LZ4_initStreamHC level));
     level := level;
     block_size := block_size;
     compressed_size := compressed_size;
     size := size;
     content_checksum := content_checksum;
     block_checksum := block_checksum;
     block_header_size := 4 + (if block_checksum then 4 else 0);
     header := header;
     header_size := 7;
     xxh := heap |}.


(** ** The caller's side of the block protocol

    lz4.h:72-75: the caller reads the four-byte length field itself, clears
    its high bit, which marks a block stored raw, and passes the bytes after
    the field; [lz4_block_header_size] of the session tells how many bytes
    follow the payload. *)
Definition decode_block (l : lz4_s) (wire : list byte) (dest_len : Z)
  : option (Z * list byte * lz4_s) :=
  field <- read_little_endian_32 wire ;;
  let compressed := negb (Z.testbit field 31) in
  let payload_len := Z.land field 0x7fffffff in
  lz4_decompress l (skipn 4 wire)
    (to_uint32 (payload_len + lz4_block_header_size l)) dest_len compressed.

(** A stream of blocks through one compression session: one
    [lz4_compress_block] call per block, into a buffer of [dest_len] bytes. *)
Fixpoint compress_blocks (l : lz4_s) (blocks : list (list byte))
    (dest_len : Z) : option (list (list byte) * lz4_s) :=
  match blocks with
  | [] => Some ([], l)
  | b :: rest =>
      ' (_, wire, l) <- lz4_compress_block l b (len b) dest_len ;;
      ' (wires, l) <- compress_blocks l rest dest_len ;;
      Some (wire :: wires, l)
  end.

(** The same stream through one decompression session; a negative result of
    [lz4_decompress] ends it. *)
Fixpoint decompress_blocks (l : lz4_s) (wires : list (list byte))
    (dest_len : Z) : option (list (list byte) * lz4_s) :=
  match wires with
  | [] => Some ([], l)
  | w :: rest =>
      ' (r, dest, l) <- decode_block l w dest_len ;;
      if r <? 0 then None
      else
        produced <- load dest 0 r ;;
        ' (blocks, l) <- decompress_blocks l rest dest_len ;;
        Some (produced :: blocks, l)
  end.

(** A compression session as [_lz4_init] builds it and [lz4_compress] keeps
    it: [ctx] holds a properly initialised stream of the type the level
    selects. *)
Definition compress_session_ok (l : lz4_s) : Prop :=
  match ctx l with
  | Some (ctx_fast s) => level l < LZ4HC_CLEVEL_MIN /\ stream_ok s
  | Some (ctx_hc s) => LZ4HC_CLEVEL_MIN <= level l /\ streamHC_ok s
  | None => False
  end.

(** Two sessions that differ at most in the accumulator and the compressor
    working memory. *)
Definition same_settings (l l' : lz4_s) : Prop :=
  size l' = size l /\ content_checksum l' = content_checksum l
  /\ block_checksum l' = block_checksum l /\ level l' = level l
  /\ header l' = header l /\ header_size l' = header_size l
  /\ block_size l' = block_size l /\ compressed_size l' = compressed_size l
  /\ block_header_size l' = block_header_size l.

(** The accumulator step of the codec (lz4.c:177-178 and 170-171): the
    session after [XXH32_update] with [bytes], when the content-checksum flag
    is set. *)
Definition content_update (l : lz4_s) (bytes : list byte) : lz4_s :=
  if content_checksum l then set_xxh l (XXH32_update (xxh l) bytes) else l.

(** The bytes that follow a payload on the wire (lz4.c:192-195): its
    checksum when the block-checksum flag [bc] is set. *)
Definition trailer_of (bc : bool) (payload : list byte) : list byte :=
  if bc then write_little_endian_32 (to_uint32 (XXH32 payload 0)) else [].

End Container.

(** ** What the container relies on *)

(** Modelled from the spec: the vendored impl/lz4.c and impl/lz4hc.c are
    consumed, not part of the container.  Their promise (sections 4.2 and 6
    of the specification: a compressor never writes past the capacity and
    reports a result that does not fit; the safe decoder inverts it; the
    bound function gives a capacity that always suffices): a compressor
    either answers [0], its report of failure, or stores the [r] bytes it
    counts, within the capacity, which [LZ4_decompress_safe] turns back into
    the input; it succeeds whenever the capacity reaches
    [LZ4_compressBound]. *)

Definition compress_promise {L : LZ4Lib} (src : list byte) (n cap : Z)
    (r : Z) (out : list byte) : Prop :=
  (r = 0 \/
   (0 < r <= cap /\ len out = r /\
    forall rest dcap, n <= dcap < 2 ^ 31 ->
      LZ4_decompress_safe (out ++ rest) r dcap
      = (n, firstn (Z.to_nat n) src)))
  /\ (0 < n -> 0 < LZ4_compressBound n <= cap -> 0 < r).

Class LZ4Laws (L : LZ4Lib) : Prop := {
  initStream_ok : stream_ok LZ4_initStream;
  attach_dictionary_ok : forall s, stream_ok s -> stream_ok (LZ4_attach_dictionary s);
  compress_fast_ok : forall s src n cap acc,
    stream_ok s -> 0 <= n <= len src -> n < 2 ^ 31 -> 0 <= cap < 2 ^ 31 ->
    let '(r, out, s') := LZ4_compress_fast_extState_fastReset s src n cap acc in
    stream_ok s' /\ compress_promise src n cap r out;
  initStreamHC_ok : streamHC_ok LZ4_initStreamHC;
  setCompressionLevel_ok : forall s lvl,
    streamHC_ok s -> streamHC_ok (LZ4_setCompressionLevel s lvl);
  resetStreamHC_fast_ok : forall s lvl,
    streamHC_ok s -> streamHC_ok (LZ4_resetStreamHC_fast s lvl);
  attach_HC_dictionary_ok : forall s,
    streamHC_ok s -> streamHC_ok (LZ4_attach_HC_dictionary s);
  compress_HC_ok : forall s src n cap lvl,
    streamHC_ok s -> 0 <= n <= len src -> n < 2 ^ 31 -> 0 <= cap < 2 ^ 31 ->
    let '(r, out, s') := LZ4_compress_HC_extStateHC_fastReset s src n cap lvl in
    streamHC_ok s' /\ compress_promise src n cap r out;
  compressBound_pos : forall n,
    0 < n <= 4 * 1024 * 1024 -> 0 < LZ4_compressBound n;
  compressBound_mono : forall n m,
    0 <= n <= m -> m <= 4 * 1024 * 1024 ->
    LZ4_compressBound n <= LZ4_compressBound m;
  compressBound_small :
    LZ4_compressBound (4 * 1024 * 1024) < 2 ^ 30
}.

(** ** A small instance of the interfaces

    A stand-in compressor and hash with the shape of the vendored ones, used
    to run the container on concrete inputs.  The compressor stores a run of
    one repeated byte as tag [x01], the byte and its 32-bit count, and
    anything else as tag [x00] followed by the input; it reports [0] when the
    result exceeds the capacity. *)
Module Demo.

Definition encode (data : list byte) : list byte :=
  match data with
  | b :: _ =>
      if (6 <? len data) && forallb (Byte.eqb b) data
      then x01 :: b :: write_little_endian_32 (len data)
      else x00 :: data
  | [] => [x00]
  end.

Definition compress (calls : nat) (src : list byte) (n cap : Z)
  : Z * list byte * nat :=
  if n <? 0 then (0, [], S calls)
  else
    let enc := encode (firstn (Z.to_nat n) src) in
    if len enc <=? cap then (len enc, enc, S calls) else (0, [], S calls).

Definition decompress (src : list byte) (n cap : Z) : Z * list byte :=
  match firstn (Z.to_nat n) src with
  | x00 :: data =>
      if len data <=? cap then (len data, data) else (-1, [])
  | [x01; b; c0; c1; c2; c3] =>
      match read_little_endian_32 [c0; c1; c2; c3] with
      | Some k => if k <=? cap then (k, repeat b (Z.to_nat k)) else (-2, [])
      | None => (-3, [])
      end
  | _ => (-4, [])
  end.

#[export] Instance lz4 : LZ4Lib := {|
  LZ4_stream_t := nat;
  LZ4_streamHC_t := nat;
  LZ4HC_CLEVEL_MIN := 3;
  LZ4_compressBound := fun n => n + 1;
  LZ4_initStream := O;
  LZ4_attach_dictionary := fun s => s;
  LZ4_compress_fast_extState_fastReset := fun s src n cap _ => compress s src n cap;
  LZ4_initStreamHC := O;
  LZ4_setCompressionLevel := fun s _ => s;
  LZ4_resetStreamHC_fast := fun s _ => s;
  LZ4_attach_HC_dictionary := fun s => s;
  LZ4_compress_HC_extStateHC_fastReset := fun s src n cap _ => compress s src n cap;
  LZ4_decompress_safe := decompress;
  stream_ok := fun _ => True;
  streamHC_ok := fun _ => True
|}.

Definition mix (h : Z) (b : byte) : Z := (h * 31 + Z_of_byte b + 7) mod 2 ^ 32.

#[export] Instance xxhash : XXHashLib := {|
  XXH32_state_t := Z;
  XXH32 := fun bytes seed => fold_left mix bytes (seed mod 2 ^ 32);
  XXH32_reset := fun seed => seed mod 2 ^ 32;
  XXH32_update := fun st bytes => fold_left mix bytes st;
  XXH32_digest := fun st => st
|}.

(** What uninitialised memory happens to hold: a header record, and a hash
    state left by an earlier use (seed [0xdeadbeef], nothing hashed). *)
Definition junk_header : lz4_header_t :=
  mk_header 0 0 s4mb true true [].
Definition junk_xxh : Z := 0xdeadbeef.

(** A compression session at level 1 for 64KB blocks, and the decompression
    session opened from its descriptor. *)
Definition session (bc cc : bool) : lz4_s := _lz4_init junk_xxh 1 s64kb bc cc.

Definition reader (bc cc : bool) : lz4_s :=
  match _lz4_init_decompress junk_header junk_xxh
          (fst (lz4_get_header (session bc cc)))
          (snd (lz4_get_header (session bc cc))) with
  | Some d => d
  | None => session bc cc
  end.

Definition three_blocks : list (list byte) :=
  [repeat x41 12; [x41; x42]; []].

End Demo.

(** ** The rest of lz4.c: skipping a block and the one-shot helpers *)

Section Rest.

Context {L : LZ4Lib} {X : XXHashLib}.

(** lz4.c:21 *)
Definition lz4_compress_bound (inputSize : Z) : Z :=
  LZ4_compressBound inputSize.

(** lz4.c:133-140, the block-checksum guard of [lz4_skip]: [None] where the
    source returns [false], the shrunk length where it goes on. *)
Definition skip_block_checksum (l : lz4_s) (src : list byte) (src_len : Z)
  : option (option Z) :=
  if block_checksum l then
    trailer <- load src (src_len - 4) 4 ;;
    checksum <- read_little_endian_32 trailer ;;
    body <- load src 0 (to_uint32 (src_len - 4)) ;;
    let crc32 := to_uint32 (XXH32 body 0) in
    if negb (crc32 =? checksum) then Some None
    else Some (Some (to_uint32 (src_len - 4)))
  else Some (Some src_len).

(** lz4.c:131.  The result is the returned [bool], the bytes stored at
    [dest] and the session afterwards.  The parameter [compressed] is never
    read by the source. *)
Definition lz4_skip (l : lz4_s) (src : list byte) (src_len dest_len : Z)
    (compressed : bool) : option (bool * list byte * lz4_s) :=
  g <- skip_block_checksum l src src_len ;;
  match g with
  | None => Some (false, [], l)
  | Some src_len =>
      if content_checksum l then
        let '(r, dest) :=
          LZ4_decompress_safe src (to_int src_len) (to_int dest_len) in
        if r <? 0 then Some (false, dest, l)
        else if content_checksum l then
          produced <- load dest 0 r ;;
          Some (true, dest, set_xxh l (XXH32_update (xxh l) produced))
        else Some (true, dest, l)
      else Some (true, [], l)
  end.

(** lz4.c:446.  The sizes are [int] arguments; the result is the returned
    [bool] and the bytes stored at [dest]. *)
Definition lz4_decompress_into_fixed_buffer (dest_size : Z)
    (src : list byte) (src_size : Z) : bool * list byte :=
  let '(decompressed_size, dest) :=
    LZ4_decompress_safe src src_size dest_size in
  if negb (decompressed_size =? dest_size) then (false, dest)
  else (true, dest).

End Rest.

(** The one-shot compressors [lz4_compress_appending_to_buffer] calls, the
    size of the high-effort stream it reserves room for, and whether
    [aml_buffer_append_ualloc] of the a-memory-library hands out the region
    asked for ([true]) or a null pointer ([false]). *)
Class LZ4OneShot (L : LZ4Lib) : Type := {
  LZ4_compress_default : list byte -> Z -> Z -> Z * list byte;
  LZ4_compress_HC_extStateHC :
    LZ4_streamHC_t -> list byte -> Z -> Z -> Z
    -> Z * list byte * LZ4_streamHC_t;
  sizeof_LZ4_streamHC_t : Z;
  aml_buffer_append_ualloc_ok : list byte -> Z -> bool
}.

(** lz4.c:405.  An [aml_buffer_t] is the list of bytes it holds:
    [aml_buffer_length] is its length, [aml_buffer_append_ualloc] reserves a
    region after them, where the compressor stores its output, and
    [aml_buffer_resize] cuts the buffer back to the old bytes ([olen]) or to
    the old bytes and the [compressed_data_size] bytes stored.  The result is
    the returned [size_t] and the buffer afterwards; the buffer is
    indeterminate ([None]) when the compressor counts more bytes than it
    stored.  The alignment of the high-effort stream inside the reserved
    region (lz4.c:424-426) is a matter of memory layout and has no part in
    the result. *)
Definition lz4_compress_appending_to_buffer {L : LZ4Lib} {O : LZ4OneShot L}
    (dest : list byte) (src : list byte) (src_size level : Z)
  : option (Z * list byte) :=
  let max_dst_size := to_int (LZ4_compressBound src_size) in
  let olen := len dest in
  let hc_stream_size :=
    if 0 <? level then sizeof_LZ4_streamHC_t + 8 else 0 in
  if negb (aml_buffer_append_ualloc_ok dest (max_dst_size + hc_stream_size))
  then Some (0, dest)
  else
    let '(compressed_data_size, dst) :=
      if level <=? 0 then
        LZ4_compress_default src src_size max_dst_size
      else
        let hc_stream := LZ4_initStreamHC in
        let hc_stream := LZ4_setCompressionLevel hc_stream level in
        let '(n, out, _) :=
          LZ4_compress_HC_extStateHC hc_stream src src_size max_dst_size
            level in
        (n, out) in
    if compressed_data_size <=? 0 then Some (0, firstn (Z.to_nat olen) dest)
    else
      stored <- load dst 0 compressed_data_size ;;
      Some (compressed_data_size, dest ++ stored).

(** Modelled from the spec: the promise of the vendored one-shot compressors
    (section 6 of the specification), the same as for the stream
    compressors. *)
Class LZ4OneShotLaws (L : LZ4Lib) (O : LZ4OneShot L) : Prop := {
  compress_default_ok : forall src n cap,
    0 <= n <= len src -> n < 2 ^ 31 ->
    let '(r, out) := LZ4_compress_default src n cap in
    compress_promise src n cap r out;
  compress_HC_extStateHC_ok : forall s src n cap lvl,
    streamHC_ok s -> 0 <= n <= len src -> n < 2 ^ 31 ->
    let '(r, out, _) := LZ4_compress_HC_extStateHC s src n cap lvl in
    compress_promise src n cap r out
}.

(** The one-shot side of the small instance: allocation fails for regions
    above 16MB. *)
Definition demo_compress_default (src : list byte) (n cap : Z)
  : Z * list byte :=
  let '(r, out, _) := Demo.compress 0 src n cap in (r, out).

Definition demo_compress_HC (s : @LZ4_streamHC_t Demo.lz4) (src : list byte)
    (n cap lvl : Z) : Z * list byte * @LZ4_streamHC_t Demo.lz4 :=
  Demo.compress s src n cap.

#[export] Instance demo_oneshot : LZ4OneShot Demo.lz4 :=
  Build_LZ4OneShot Demo.lz4 demo_compress_default demo_compress_HC 262200
    (fun _ n => n <=? 2 ^ 24).

(** ** Allocated accumulators *)

(** The states of the hash: what [XXH32_reset] and [XXH32_update] produce.
    On these [XXH32_update] and [XXH32_digest] run; an allocation that has
    never been reset holds one of them only by chance. *)
Definition XXH32_initialised {X : XXHashLib} (st : XXH32_state_t) : Prop :=
  exists (seed : Z) (chunks : list (list byte)),
    st = fold_left XXH32_update chunks (XXH32_reset seed).

(** Modelled from the spec: the vendored decoder of impl/lz4.c (section 4.4,
    step 3 and section 6 (d) of the specification: it fails if the payload
    would overflow the destination).  What decodes to [n] bytes is refused,
    with a negative result, for every capacity below [n]. *)
Class LZ4DecoderLaws (L : LZ4Lib) : Prop := {
  decompress_overflow_fails : forall p k dcap dcap' n data,
    LZ4_decompress_safe p k dcap' = (n, data) -> 0 <= n -> dcap < n ->
    fst (LZ4_decompress_safe p k dcap) < 0
}.

(** ** Helpers for stating the properties *)

(** The buffer [p] with the byte at index [i] replaced by [b]. *)
Fixpoint poke (i : nat) (b : byte) (p : list byte) : list byte :=
  match p, i with
  | [], _ => []
  | _ :: q, O => b :: q
  | a :: q, S j => a :: poke j b q
  end.

(** * Properties *)

(** ** Bytes, words and buffers *)

Lemma Z_of_byte_range (b : byte) : 0 <= Z_of_byte b < 256.
Proof.
  unfold Z_of_byte. pose proof (Byte.to_N_bounded b) as Hb.
  split; [apply N2Z.is_nonneg | ].
  change 256 with (Z.of_N 256). apply N2Z.inj_lt. lia.
Qed.

Lemma Z_of_byte_of_Z (z : Z) : Z_of_byte (byte_of_Z z) = z mod 256.
Proof.
  unfold Z_of_byte, byte_of_Z.
  pose proof (Z.mod_pos_bound z 256 ltac:(lia)) as Hr.
  destruct (Byte.of_N (Z.to_N (z mod 256))) as [b|] eqn:E.
  - apply Byte.to_of_N in E. rewrite E. apply Z2N.id. lia.
  - apply Byte.of_N_None_iff in E. lia.
Qed.

Lemma byte_of_Z_of_byte (b : byte) : byte_of_Z (Z_of_byte b) = b.
Proof.
  unfold byte_of_Z. pose proof (Z_of_byte_range b) as Hr.
  rewrite Z.mod_small by exact Hr.
  unfold Z_of_byte. rewrite N2Z.id, Byte.of_to_N. reflexivity.
Qed.

Lemma eqb_true_iff (a b : byte) : Byte.eqb a b = true <-> a = b.
Proof. split; [apply Byte.byte_dec_bl | apply Byte.byte_dec_lb]. Qed.

Lemma to_uint32_range (z : Z) : 0 <= to_uint32 z < 2 ^ 32.
Proof. unfold to_uint32. apply Z.mod_pos_bound. lia. Qed.

Lemma to_uint32_small (z : Z) : 0 <= z < 2 ^ 32 -> to_uint32 z = z.
Proof. intros. unfold to_uint32. apply Z.mod_small. assumption. Qed.

Lemma to_int_small (z : Z) : 0 <= z < 2 ^ 31 -> to_int z = z.
Proof.
  intros H. unfold to_int. rewrite Z.mod_small by lia.
  destruct (Z.ltb_spec z (2 ^ 31)); lia.
Qed.

Lemma read_write_little_endian_32 (v : Z) (rest : list byte) :
  read_little_endian_32 (write_little_endian_32 v ++ rest)
  = Some (to_uint32 v).
Proof.
  unfold read_little_endian_32, write_little_endian_32, to_uint32.
  cbn [app].
  rewrite !Z_of_byte_of_Z, !Z.shiftr_div_pow2, !Z.shiftl_mul_pow2 by lia.
  f_equal.
  change (2 ^ 8) with 256. change (2 ^ 16) with (256 * 256).
  change (2 ^ 24) with (256 * 256 * 256).
  change (2 ^ 32) with (256 * (256 * (256 * 256))).
  rewrite <- !Z.div_div by lia.
  rewrite !Z.rem_mul_r by lia.
  lia.
Qed.

Lemma length_write_little_endian_32 (v : Z) :
  length (write_little_endian_32 v) = 4%nat.
Proof. reflexivity. Qed.

Lemma len_app (a b : list byte) : len (a ++ b) = len a + len b.
Proof. unfold len. rewrite length_app. lia. Qed.

Lemma len_nonneg (a : list byte) : 0 <= len a.
Proof. unfold len. lia. Qed.

Lemma load_prefix (p : list byte) (n : Z) :
  0 <= n <= len p -> load p 0 n = Some (firstn (Z.to_nat n) p).
Proof.
  intros H. unfold load.
  destruct (Z.leb_spec 0 n); [ | lia].
  destruct (Z.leb_spec (0 + n) (len p)); [ | lia].
  reflexivity.
Qed.

Lemma load_app_l (a b : list byte) : load (a ++ b) 0 (len a) = Some a.
Proof.
  rewrite load_prefix by (rewrite len_app; pose proof (len_nonneg b); pose proof (len_nonneg a); lia).
  unfold len. rewrite Nat2Z.id, firstn_app, Nat.sub_diag, firstn_all. simpl.
  rewrite app_nil_r. reflexivity.
Qed.

Lemma load_all (a : list byte) : load a 0 (len a) = Some a.
Proof.
  rewrite <- (app_nil_r a) at 1. apply load_app_l.
Qed.

Lemma load_app_r (a b c : list byte) :
  load (a ++ b ++ c) (len a) (len b) = Some b.
Proof.
  unfold load. pose proof (len_nonneg a). pose proof (len_nonneg b).
  pose proof (len_nonneg c).
  destruct (Z.leb_spec 0 (len a)); [ | lia].
  destruct (Z.leb_spec 0 (len b)); [ | lia].
  destruct (Z.leb_spec (len a + len b) (len (a ++ b ++ c)));
    [ | rewrite !len_app in *; lia].
  simpl. unfold len. rewrite !Nat2Z.id.
  rewrite skipn_app, skipn_all, Nat.sub_diag. simpl.
  rewrite firstn_app, Nat.sub_diag, firstn_all. simpl.
  rewrite app_nil_r. reflexivity.
Qed.

(** ** The descriptor table *)

Ltac byte_cases :=
  repeat match goal with
  | |- context [Byte.eqb ?a ?b] =>
      let E := fresh "E" in
      destruct (Byte.eqb a b) eqn:E;
      [ apply Byte.byte_dec_bl in E; subst | ]; simpl
  end.

Lemma seven_bytes (h : list byte) :
  length h = 7%nat ->
  exists a b c d e f g, h = [a; b; c; d; e; f; g].
Proof.
  intros H.
  do 7 (destruct h as [ | ? h]; [discriminate | ]).
  destruct h; [ | discriminate].
  repeat eexists.
Qed.

(** C5. [lz4_check_header] succeeds exactly when the input is seven bytes
    long, starts with the magic prefix and ends with one of the sixteen
    catalogued three-byte suffixes. *)
Theorem lz4_check_header_recognizes {L : LZ4Lib} :
  forall (r0 : lz4_header_t) (h : list byte),
    (exists r, lz4_check_header (Some r0) h (len h) = Some r)
    <-> (length h = 7%nat /\ firstn 4 h = magic /\ In (skipn 4 h) suffix_table).
Proof.
  intros r0 h. split.
  - intros [r Hr]. unfold lz4_check_header in Hr.
    destruct (Z.eqb_spec (len h) 7) as [Hlen | ]; [ | discriminate].
    assert (Hl : length h = 7%nat) by (unfold len in Hlen; lia).
    destruct (seven_bytes h Hl) as (a & b & c & d & e & f & g & ->).
    split; [reflexivity | ].
    revert Hr. unfold neb, select_flags, idx. simpl.
    byte_cases; intros Hr; try discriminate Hr;
      (split; [reflexivity | simpl; tauto]).
  - intros (Hl & Hm & Hin).
    destruct (seven_bytes h Hl) as (a & b & c & d & e & f & g & ->).
    injection Hm as -> -> -> ->.
    simpl in Hin.
    repeat (destruct Hin as [Hin | Hin];
            [injection Hin as <- <- <-; eexists; reflexivity | ]).
    contradiction.
Qed.

(** The two rejections the specification names: the all-zero header and a
    catalogued descriptor with one byte changed. *)
Lemma lz4_check_header_rejects_zeros {L : LZ4Lib} (r0 : lz4_header_t) :
  lz4_check_header (Some r0) (repeat x00 7) 7 = None.
Proof. reflexivity. Qed.

Lemma lz4_check_header_rejects_changed_byte {L : LZ4Lib} :
  forall (r0 : lz4_header_t) (d : list byte) (i : nat) (b : byte),
    In d descriptor_table -> (i < 7)%nat -> b <> nth i d x00 ->
    lz4_check_header (Some r0) (poke i b d) 7 = None.
Proof.
  intros r0 d i b Hin Hi Hb.
  assert (Hcases : (i = 0 \/ i = 1 \/ i = 2 \/ i = 3 \/ i = 4 \/ i = 5
                    \/ i = 6)%nat) by lia.
  clear Hi.
  repeat (destruct Hcases as [Hcases | Hcases]; [subst i | ]); try subst i;
    simpl in Hin;
    repeat (destruct Hin as [Hin | Hin]; [subst d | ]); try contradiction;
    unfold lz4_check_header, neb, select_flags, idx; simpl; simpl in Hb;
    byte_cases; try reflexivity; congruence.
Qed.

(** ** Sessions *)

Section Sessions.

Context {L : LZ4Lib} {X : XXHashLib}.

Lemma lz4_init_fields (heap : XXH32_state_t) (lvl : Z)
    (sz : lz4_block_size_t) (bc cc : bool) :
  let l := _lz4_init heap lvl sz bc cc in
  block_checksum l = bc /\ content_checksum l = cc
  /\ block_header_size l = 4 + (if bc then 4 else 0)
  /\ header_size l = 7 /\ In (header l) descriptor_table
  /\ xxh l = heap /\ level l = lvl
  /\ compressed_size l = to_uint32 (LZ4_compressBound (block_size l))
  /\ 64 * 1024 <= block_size l <= 4 * 1024 * 1024.
Proof.
  destruct sz, bc, cc; cbn -[Z.mul to_uint32 LZ4_compressBound];
    repeat split; try lia; tauto.
Qed.

Lemma lz4_init_decompress_fields (h : lz4_header_t) (heap : XXH32_state_t)
    (hdr : list byte) (n : Z) (l : lz4_s) :
  _lz4_init_decompress h heap hdr n = Some l ->
  block_header_size l = (if block_checksum l then 4 else 0)
  /\ ctx l = None
  /\ xxh l = (if content_checksum l then XXH32_reset 0 else heap).
Proof.
  unfold _lz4_init_decompress.
  destruct (lz4_check_header (Some h) hdr n) as [h' | ]; [ | discriminate].
  intros H. injection H as <-. cbn. auto.
Qed.

(** The descriptor a compression session emits opens a decompression session
    with the same flags and sizes. *)
Lemma lz4_init_decompress_of_init (heap : XXH32_state_t) (lvl : Z)
    (sz : lz4_block_size_t) (bc cc : bool)
    (h : lz4_header_t) (heapd : XXH32_state_t) :
  let c := _lz4_init heap lvl sz bc cc in
  exists l,
    _lz4_init_decompress h heapd (fst (lz4_get_header c))
      (snd (lz4_get_header c)) = Some l
    /\ block_checksum l = bc /\ content_checksum l = cc
    /\ block_size l = block_size c
    /\ compressed_size l = compressed_size c
    /\ block_header_size l = (if bc then 4 else 0)
    /\ ctx l = None.
Proof.
  destruct sz, bc, cc; eexists; (split; [reflexivity | ]);
    cbn -[Z.mul to_uint32 LZ4_compressBound]; repeat split.
Qed.

(** C2, as the code has it.  A compression session has
    [block_header_size = 4 + (block_checksum ? 4 : 0)]; a decompression
    session has [block_header_size = (block_checksum ? 4 : 0)], four less
    than a compression session with the same block-checksum flag. *)
Theorem block_header_size_by_mode :
  forall (heap : XXH32_state_t) (lvl : Z) (sz : lz4_block_size_t)
         (bc cc : bool) (h : lz4_header_t) (heapd : XXH32_state_t)
         (hdr : list byte) (n : Z) (l : lz4_s),
    _lz4_init_decompress h heapd hdr n = Some l ->
    block_header_size (_lz4_init heap lvl sz bc cc)
    = 4 + (if bc then 4 else 0)
    /\ block_header_size l = (if block_checksum l then 4 else 0)
    /\ (block_checksum l = bc ->
        block_header_size (_lz4_init heap lvl sz bc cc)
        = 4 + block_header_size l).
Proof.
  intros heap lvl sz bc cc h heapd hdr n l Hl.
  destruct (lz4_init_fields heap lvl sz bc cc) as (_ & _ & Hc & _).
  destruct (lz4_init_decompress_fields _ _ _ _ _ Hl) as (Hd & _).
  rewrite Hc, Hd. repeat split. intros ->. reflexivity.
Qed.

(** The sibling path: [_lz4_init_decompress] resets the accumulator of a
    session with the content-checksum flag. *)
Lemma lz4_init_decompress_resets (h : lz4_header_t) (heap : XXH32_state_t)
    (hdr : list byte) (n : Z) (l : lz4_s) :
  _lz4_init_decompress h heap hdr n = Some l ->
  content_checksum l = true ->
  xxh l = XXH32_reset 0.
Proof.
  intros Hl Hcc.
  destruct (lz4_init_decompress_fields _ _ _ _ _ Hl) as (_ & _ & Hx).
  rewrite Hx, Hcc. reflexivity.
Qed.

(** ** Finishing a stream *)

(** C8. In compress mode [lz4_finish] stores the four zero bytes of the
    terminal marker, then the digest when the content-checksum flag is set,
    and returns the count stored (8 or 4).  In decompress mode it returns
    -500 exactly when the flag is set and the stored digest differs from the
    accumulated one, and 0 otherwise. *)
Theorem lz4_finish_by_mode :
  forall (l : lz4_s) (dest : list byte),
    (ctx l <> None ->
     exists written,
       lz4_finish l dest
       = Some (if content_checksum l then 8 else 4, written)
       /\ written
          = write_little_endian_32 0
            ++ (if content_checksum l
                then write_little_endian_32 (to_uint32 (XXH32_digest (xxh l)))
                else [])
       /\ len written = (if content_checksum l then 8 else 4))
    /\ (ctx l = None -> content_checksum l = false ->
        lz4_finish l dest = Some (0, []))
    /\ (ctx l = None ->
        forall stored, read_little_endian_32 dest = Some stored ->
        exists r,
          lz4_finish l dest = Some (r, [])
          /\ (r = -500 <->
              content_checksum l = true
              /\ stored <> to_uint32 (XXH32_digest (xxh l)))
          /\ (r <> -500 -> r = 0)).
Proof.
  intros l dest. unfold lz4_finish. repeat split.
  - intros Hctx. destruct (ctx l); [ | congruence].
    destruct (content_checksum l); eexists; repeat split.
  - intros -> ->. reflexivity.
  - intros -> stored ->.
    destruct (content_checksum l).
    + destruct (Z.eqb_spec (to_uint32 (XXH32_digest (xxh l))) stored) as [E | E];
        cbn [negb]; eexists; (split; [reflexivity | ]); split.
      * split; [discriminate | ]. intros [_ H]. congruence.
      * reflexivity.
      * split; [ | reflexivity]. intros _. split; [reflexivity | congruence].
      * congruence.
    + eexists. split; [reflexivity | ]. split; [ | reflexivity].
      split; [discriminate | ]. intros [H _]. discriminate.
Qed.

End Sessions.

(** ** The block codec *)

Lemma lor_high_bit (n : Z) :
  0 <= n < 2 ^ 31 -> Z.lor n 0x80000000 = n + 2 ^ 31.
Proof.
  intros Hn. change 0x80000000 with (2 ^ 31).
  assert (Hland : Z.land n (2 ^ 31) = 0).
  { apply Z.bits_inj'. intros k Hk.
    rewrite Z.land_spec, Z.pow2_bits_eqb, Z.bits_0 by lia.
    destruct (Z.eqb_spec 31 k) as [<- | ]; [ | apply andb_false_r].
    rewrite andb_true_r. apply Z.testbit_false; [lia | ].
    rewrite Z.div_small by lia. reflexivity. }
  rewrite <- Z.lxor_lor by exact Hland.
  symmetry. apply Z.add_nocarry_lxor. exact Hland.
Qed.

Lemma high_bit_set (n : Z) :
  0 <= n < 2 ^ 31 -> Z.testbit (n + 2 ^ 31) 31 = true.
Proof.
  intros Hn. apply Z.testbit_true; [lia | ].
  replace (n + 2 ^ 31) with (n + 1 * 2 ^ 31) by lia.
  rewrite Z.div_add, Z.div_small by lia. reflexivity.
Qed.

Lemma high_bit_clear (n : Z) :
  0 <= n < 2 ^ 31 -> Z.testbit n 31 = false.
Proof.
  intros Hn. apply Z.testbit_false; [lia | ].
  rewrite Z.div_small by lia. reflexivity.
Qed.

Lemma low_bits_of_raw (n : Z) :
  0 <= n < 2 ^ 31 -> Z.land (n + 2 ^ 31) 0x7fffffff = n.
Proof.
  intros Hn. change 0x7fffffff with (Z.ones 31).
  rewrite Z.land_ones by lia.
  replace (n + 2 ^ 31) with (n + 1 * 2 ^ 31) by lia.
  rewrite Z.mod_add, Z.mod_small by lia. reflexivity.
Qed.

Lemma low_bits_of_small (n : Z) :
  0 <= n < 2 ^ 31 -> Z.land n 0x7fffffff = n.
Proof.
  intros Hn. change 0x7fffffff with (Z.ones 31).
  rewrite Z.land_ones, Z.mod_small by lia. reflexivity.
Qed.

Section Codec.

Context {L : LZ4Lib} {X : XXHashLib}.

Lemma same_settings_refl (l : lz4_s) : same_settings l l.
Proof. unfold same_settings. tauto. Qed.

Lemma same_settings_trans (a b c : lz4_s) :
  same_settings a b -> same_settings b c -> same_settings a c.
Proof. unfold same_settings. intuition congruence. Qed.

Lemma same_settings_set_xxh (l : lz4_s) (x : XXH32_state_t) :
  same_settings l (set_xxh l x).
Proof. unfold same_settings. cbn. tauto. Qed.

(** [lz4_compress] touches the compressor working memory only. *)
Lemma lz4_compress_frame (l l' : lz4_s) (src out : list byte) (n cap c : Z) :
  lz4_compress l src n cap = Some (c, out, l') ->
  same_settings l l' /\ xxh l' = xxh l /\ ctx l' <> None
  /\ 0 <= c < 2 ^ 32.
Proof.
  unfold lz4_compress. destruct (ctx l) as [[s | s] | ]; [ | | discriminate].
  - destruct (level l <? LZ4HC_CLEVEL_MIN); [ | discriminate].
    destruct (LZ4_compress_fast_extState_fastReset _ _ _ _ _) as [[r o] s'].
    intros H. injection H as <- <- <-.
    repeat split; try discriminate; apply to_uint32_range.
  - destruct (level l <? LZ4HC_CLEVEL_MIN); [discriminate | ].
    destruct (LZ4_compress_HC_extStateHC_fastReset _ _ _ _ _) as [[r o] s'].
    intros H. injection H as <- <- <-.
    repeat split; try discriminate; apply to_uint32_range.
Qed.

(** The accumulator plays no part in [lz4_compress]. *)
Lemma lz4_compress_set_xxh (l : lz4_s) (x : XXH32_state_t)
    (src : list byte) (n cap : Z) :
  lz4_compress (set_xxh l x) src n cap
  = match lz4_compress l src n cap with
    | Some (c, out, l') => Some (c, out, set_xxh l' x)
    | None => None
    end.
Proof.
  unfold lz4_compress. cbn [ctx level set_xxh].
  destruct (ctx l) as [[s | s] | ]; [ | | reflexivity].
  - destruct (level l <? LZ4HC_CLEVEL_MIN); [ | reflexivity].
    destruct (LZ4_compress_fast_extState_fastReset _ _ _ _ _) as [[r o] s'].
    reflexivity.
  - destruct (level l <? LZ4HC_CLEVEL_MIN); [reflexivity | ].
    destruct (LZ4_compress_HC_extStateHC_fastReset _ _ _ _ _) as [[r o] s'].
    reflexivity.
Qed.

Lemma content_update_settings (l : lz4_s) (bytes : list byte) :
  same_settings l (content_update l bytes)
  /\ ctx (content_update l bytes) = ctx l.
Proof.
  unfold content_update. destruct (content_checksum l); cbn;
    auto using same_settings_refl, same_settings_set_xxh.
Qed.

(** [lz4_compress_block] in terms of the adapter's answer. *)
Lemma lz4_compress_block_unfold (l l2 : lz4_s) (src out : list byte)
    (src_len dest_len c : Z) :
  0 <= src_len <= len src ->
  lz4_compress l src src_len (to_uint32 (dest_len - block_header_size l))
  = Some (c, out, l2) ->
  let raw := firstn (Z.to_nat src_len) src in
  let l' := content_update l2 raw in
  let trailer (payload : list byte) :=
    if block_checksum l
    then write_little_endian_32 (to_uint32 (XXH32 payload 0)) else [] in
  lz4_compress_block l src src_len dest_len
  = if src_len <=? c
    then Some (to_uint32 (src_len + block_header_size l),
               write_little_endian_32 (Z.lor src_len 0x80000000)
               ++ raw ++ trailer raw, l')
    else match load out 0 c with
         | Some stored =>
             Some (to_uint32 (c + block_header_size l),
                   write_little_endian_32 c ++ stored ++ trailer stored, l')
         | None => None
         end.
Proof.
  intros Hlen Hc raw l' trailer. subst l' trailer.
  destruct (lz4_compress_frame _ _ _ _ _ _ _ Hc) as (Hs & Hx & _ & _).
  destruct Hs as (_ & Hcc & Hbc & _ & _ & _ & _ & _ & Hbhs).
  unfold lz4_compress_block, content_update.
  rewrite (load_prefix src src_len Hlen). fold raw.
  rewrite Hcc, Hx.
  destruct (content_checksum l).
  - cbn [block_header_size set_xxh].
    rewrite lz4_compress_set_xxh, Hc.
    cbn [block_header_size block_checksum set_xxh]. rewrite Hbc, Hbhs.
    destruct (src_len <=? c); [reflexivity | ].
    destruct (load out 0 c); reflexivity.
  - rewrite Hc. rewrite Hbc, Hbhs.
    destruct (src_len <=? c); [reflexivity | ].
    destruct (load out 0 c); reflexivity.
Qed.

End Codec.

Lemma load_inv (p q : list byte) (off n : Z) :
  load p off n = Some q ->
  0 <= off /\ 0 <= n /\ off + n <= len p
  /\ q = firstn (Z.to_nat n) (skipn (Z.to_nat off) p) /\ len q = n.
Proof.
  unfold load.
  destruct (Z.leb_spec 0 off); [ | discriminate].
  destruct (Z.leb_spec 0 n); [ | discriminate].
  destruct (Z.leb_spec (off + n) (len p)); [ | discriminate].
  cbn [andb]. intros Heq. injection Heq as <-.
  repeat split; try assumption.
  unfold len in *. rewrite length_firstn, length_skipn. lia.
Qed.

Section BlockCodec.

Context {L : LZ4Lib} {X : XXHashLib}.

(** What every successful [lz4_compress_block] call has stored and done. *)
Lemma lz4_compress_block_inv (l l' : lz4_s) (src wire : list byte)
    (src_len dest_len ret : Z) :
  lz4_compress_block l src src_len dest_len = Some (ret, wire, l') ->
  exists field payload,
    wire = field ++ payload
           ++ (if block_checksum l
               then write_little_endian_32 (to_uint32 (XXH32 payload 0))
               else [])
    /\ length field = 4%nat
    /\ ret = to_uint32 (len payload + block_header_size l)
    /\ xxh l' = xxh (content_update l (firstn (Z.to_nat src_len) src))
    /\ same_settings l l' /\ ctx l' <> None.
Proof.
  unfold lz4_compress_block.
  set (l1 := content_update l (firstn (Z.to_nat src_len) src)).
  assert (H1 : forall k,
    match (if content_checksum l
           then match load src 0 src_len with
                | Some bytes => Some (set_xxh l (XXH32_update (xxh l) bytes))
                | None => None
                end
           else Some l) with
    | Some x => k x
    | None => None
    end = Some (ret, wire, l') ->
    k l1 = Some (ret, wire, l')).
  { intros k. subst l1. unfold content_update.
    destruct (content_checksum l); [ | tauto].
    destruct (load src 0 src_len) as [bytes | ] eqn:E; [ | discriminate].
    apply load_inv in E. destruct E as (_ & _ & _ & -> & _). tauto. }
  intros H. apply H1 in H. clear H1.
  destruct (content_update_settings l (firstn (Z.to_nat src_len) src))
    as (Hs1 & _).
  fold l1 in Hs1.
  destruct (lz4_compress l1 src src_len _) as [[[c out] l2] | ] eqn:Ec;
    [ | discriminate].
  destruct (lz4_compress_frame _ _ _ _ _ _ _ Ec) as (Hs2 & Hx & Hctx & _).
  pose proof (same_settings_trans _ _ _ Hs1 Hs2) as Hs.
  destruct Hs as (Hsz & Hcc & Hbc & Hs').
  assert (Hbhs : block_header_size l2 = block_header_size l) by tauto.
  rewrite Hbc, Hbhs in H.
  destruct (src_len <=? c).
  - destruct (load src 0 src_len) as [raw | ] eqn:E; [ | discriminate].
    apply load_inv in E. destruct E as (_ & _ & _ & _ & Hraw).
    injection H as <- <- <-.
    exists (write_little_endian_32 (Z.lor src_len 0x80000000)), raw.
    rewrite Hraw. unfold same_settings. tauto.
  - destruct (load out 0 c) as [stored | ] eqn:E; [ | discriminate].
    apply load_inv in E. destruct E as (_ & _ & _ & _ & Hst).
    injection H as <- <- <-.
    exists (write_little_endian_32 c), stored.
    rewrite Hst. unfold same_settings. tauto.
Qed.

(** C6. When the compressed size is not below the raw size the block is
    stored raw: the length field is the raw length with bit 31 set and the
    payload is the input verbatim. *)
Theorem raw_fallback_when_no_gain :
  forall (l l2 : lz4_s) (src out : list byte) (src_len dest_len c : Z),
    0 <= src_len <= len src -> src_len < 2 ^ 31 ->
    lz4_compress l src src_len (to_uint32 (dest_len - block_header_size l))
    = Some (c, out, l2) ->
    src_len <= c ->
    exists field trailer l',
      lz4_compress_block l src src_len dest_len
      = Some (to_uint32 (src_len + block_header_size l),
              field ++ firstn (Z.to_nat src_len) src ++ trailer, l')
      /\ field = write_little_endian_32 (Z.lor src_len 0x80000000)
      /\ read_little_endian_32
           (field ++ firstn (Z.to_nat src_len) src ++ trailer)
         = Some (Z.lor src_len 0x80000000)
      /\ Z.testbit (Z.lor src_len 0x80000000) 31 = true
      /\ Z.land (Z.lor src_len 0x80000000) 0x7fffffff = src_len
      /\ trailer
         = (if block_checksum l
            then write_little_endian_32
                   (to_uint32 (XXH32 (firstn (Z.to_nat src_len) src) 0))
            else []).
Proof.
  intros l l2 src out src_len dest_len c Hlen Hsmall Hc Hge.
  pose proof (lz4_compress_block_unfold l l2 src out src_len dest_len c Hlen Hc)
    as Hblock.
  cbv zeta in Hblock.
  destruct (Z.leb_spec src_len c); [ | lia].
  do 3 eexists. split; [exact Hblock | ].
  split; [reflexivity | ].
  rewrite read_write_little_endian_32.
  rewrite lor_high_bit by lia.
  rewrite to_uint32_small by lia.
  rewrite high_bit_set, low_bits_of_raw by lia.
  repeat split.
Qed.

(** C4, what the code does.  When the adapter answers [0], the value with
    which the vendored compressors report that the output does not fit, and
    the block is not empty, the block is not stored raw: the length field is
    zero, the value of the terminal marker, and no payload byte follows. *)
Theorem does_not_fit_is_not_stored_raw :
  forall (l l2 : lz4_s) (src out : list byte) (src_len dest_len : Z),
    0 < src_len <= len src ->
    lz4_compress l src src_len (to_uint32 (dest_len - block_header_size l))
    = Some (0, out, l2) ->
    exists trailer l',
      lz4_compress_block l src src_len dest_len
      = Some (to_uint32 (0 + block_header_size l),
              write_little_endian_32 0 ++ [] ++ trailer, l')
      /\ trailer
         = (if block_checksum l
            then write_little_endian_32 (to_uint32 (XXH32 [] 0))
            else [])
      /\ read_little_endian_32 (write_little_endian_32 0 ++ [] ++ trailer)
         = Some 0.
Proof.
  intros l l2 src out src_len dest_len Hlen Hc.
  assert (Hlen' : 0 <= src_len <= len src) by lia.
  pose proof (lz4_compress_block_unfold l l2 src out src_len dest_len 0 Hlen' Hc)
    as Hblock.
  cbv zeta in Hblock.
  destruct (Z.leb_spec src_len 0); [lia | ].
  assert (Hl : load out 0 0 = Some []).
  { rewrite load_prefix by (pose proof (len_nonneg out); lia). reflexivity. }
  rewrite Hl in Hblock.
  do 2 eexists. split; [exact Hblock | ].
  split; [reflexivity | ].
  rewrite read_write_little_endian_32. reflexivity.
Qed.

(** The guard of [lz4_decompress] on a buffer that holds a payload and its
    four-byte trailer. *)
Lemma check_block_checksum_on (l : lz4_s)
    (payload trailer rest : list byte) (stored : Z) :
  block_checksum l = true ->
  length trailer = 4%nat -> len payload + 4 < 2 ^ 32 ->
  read_little_endian_32 trailer = Some stored ->
  check_block_checksum l (payload ++ trailer ++ rest) (len payload + 4)
  = if negb (to_uint32 (XXH32 payload 0) =? stored)
    then Some (inl (-500)) else Some (inr (len payload)).
Proof.
  intros Hbc Ht Hsmall Hread. unfold check_block_checksum. rewrite Hbc.
  replace (len payload + 4 - 4) with (len payload) by lia.
  replace 4 with (len trailer) at 1 by (unfold len; lia).
  rewrite load_app_r, Hread.
  rewrite to_uint32_small by (pose proof (len_nonneg payload); lia).
  rewrite load_app_l. reflexivity.
Qed.


(** The checksum [lz4_compress_block] appends is the one [lz4_decompress]
    accepts. *)
Lemma appended_checksum_accepted (l : lz4_s) (payload rest : list byte)
    (dest_len : Z) (compressed : bool) :
  block_checksum l = true -> len payload + 4 < 2 ^ 32 ->
  lz4_decompress l
    (payload ++ write_little_endian_32 (to_uint32 (XXH32 payload 0)) ++ rest)
    (len payload + 4) dest_len compressed
  = decompress_payload l
      (payload ++ write_little_endian_32 (to_uint32 (XXH32 payload 0)) ++ rest)
      (len payload) dest_len compressed.
Proof.
  intros Hbc Hsmall. unfold lz4_decompress.
  rewrite (check_block_checksum_on l payload
             (write_little_endian_32 (to_uint32 (XXH32 payload 0))) rest
             (to_uint32 (XXH32 payload 0)) Hbc
             (length_write_little_endian_32 _) Hsmall).
  - rewrite Z.eqb_refl. reflexivity.
  - rewrite <- (app_nil_r (write_little_endian_32 _)).
    rewrite read_write_little_endian_32.
    apply f_equal, to_uint32_small, to_uint32_range.
Qed.

End BlockCodec.

(** ** The content accumulator *)

Section ContentChecksum.

Context {L : LZ4Lib} {X : XXHashLib}.

Lemma to_int_nonneg_le (n : Z) : 0 <= n -> 0 <= to_int n -> to_int n <= n.
Proof.
  intros Hn. unfold to_int.
  pose proof (Z.mod_le n (2 ^ 32) Hn ltac:(lia)).
  destruct (n mod 2 ^ 32 <? 2 ^ 31); lia.
Qed.

Lemma decompress_payload_inv (l l' : lz4_s) (src dest : list byte)
    (src_len dest_len r : Z) (compressed : bool) :
  decompress_payload l src src_len dest_len compressed = Some (r, dest, l') ->
  (r < 0 -> l' = l)
  /\ (0 <= r -> l' = content_update l (firstn (Z.to_nat r) dest))
  /\ (compressed = false -> 0 <= r ->
      firstn (Z.to_nat r) dest = firstn (Z.to_nat r) src).
Proof.
  unfold decompress_payload, content_update.
  intros H.
  assert (Hraw : compressed = false -> 0 <= r ->
                 firstn (Z.to_nat r) dest = firstn (Z.to_nat r) src).
  { intros -> Hr.
    destruct (load src 0 src_len) as [copied | ] eqn:E; [ | discriminate].
    apply load_inv in E. destruct E as (_ & Hn & _ & Hc & _).
    cbn [skipn Z.to_nat] in Hc.
    assert (r = to_int src_len /\ dest = copied) as [-> ->].
    { destruct (to_int src_len <? 0); [injection H; auto | ].
      destruct (content_checksum l);
        [destruct (load copied 0 (to_int src_len)); [ | discriminate] | ];
        injection H; auto. }
    subst copied. rewrite firstn_firstn. f_equal.
    pose proof (to_int_nonneg_le src_len Hn Hr). lia. }
  destruct (if compressed
            then Some (LZ4_decompress_safe src (to_int src_len) (to_int dest_len))
            else match load src 0 src_len with
                 | Some copied => Some (to_int src_len, copied)
                 | None => None
                 end) as [[r0 d0] | ]; [ | discriminate].
  destruct (Z.ltb_spec r0 0).
  - injection H as <- <- <-. repeat split; auto; lia.
  - destruct (content_checksum l).
    + destruct (load d0 0 r0) as [produced | ] eqn:E; [ | discriminate].
      apply load_inv in E. destruct E as (_ & _ & _ & -> & _).
      injection H as <- <- <-. repeat split; auto; lia.
    + injection H as <- <- <-. repeat split; auto; lia.
Qed.

Lemma lz4_decompress_inv (l l' : lz4_s) (src dest : list byte)
    (src_len dest_len r : Z) (compressed : bool) :
  lz4_decompress l src src_len dest_len compressed = Some (r, dest, l') ->
  (r < 0 -> l' = l)
  /\ (0 <= r -> l' = content_update l (firstn (Z.to_nat r) dest))
  /\ (compressed = false -> 0 <= r ->
      firstn (Z.to_nat r) dest = firstn (Z.to_nat r) src).
Proof.
  unfold lz4_decompress.
  destruct (check_block_checksum l src src_len) as [[e | n] | ] eqn:G;
    [ | | discriminate].
  - unfold check_block_checksum in G.
    assert (e = -500).
    { destruct (block_checksum l); [ | discriminate].
      destruct (load src (src_len - 4) 4); [ | discriminate].
      destruct (read_little_endian_32 l0); [ | discriminate].
      destruct (load src 0 (to_uint32 (src_len - 4))); [ | discriminate].
      destruct (negb _); congruence. }
    subst e. intros H. injection H as <- <- <-. repeat split; lia.
  - apply decompress_payload_inv.
Qed.

Lemma content_update_xxh (l : lz4_s) (bytes : list byte) :
  xxh (content_update l bytes)
  = if content_checksum l then XXH32_update (xxh l) bytes else xxh l.
Proof. unfold content_update. destruct (content_checksum l); reflexivity. Qed.

Lemma firstn_len (b : list byte) : firstn (Z.to_nat (len b)) b = b.
Proof. unfold len. rewrite Nat2Z.id. apply firstn_all. Qed.

Lemma compress_blocks_accumulate (blocks : list (list byte)) :
  forall (l l' : lz4_s) (wires : list (list byte)) (dest_len : Z),
    compress_blocks l blocks dest_len = Some (wires, l') ->
    content_checksum l' = content_checksum l
    /\ xxh l' = if content_checksum l
                then fold_left XXH32_update blocks (xxh l) else xxh l.
Proof.
  induction blocks as [ | b rest IH]; intros l l' wires dest_len H; cbn in H.
  - injection H as <- <-. destruct (content_checksum l); auto.
  - destruct (lz4_compress_block l b (len b) dest_len)
      as [[[ret wire] l1] | ] eqn:E1; [ | discriminate].
    destruct (compress_blocks l1 rest dest_len) as [[ws l2] | ] eqn:E2;
      [ | discriminate].
    injection H as <- <-.
    destruct (lz4_compress_block_inv _ _ _ _ _ _ _ E1)
      as (_ & _ & _ & _ & _ & Hx & Hs & _).
    destruct (IH _ _ _ _ E2) as (Hcc & Hx2).
    assert (Hcc1 : content_checksum l1 = content_checksum l)
      by (unfold same_settings in Hs; tauto).
    rewrite firstn_len, content_update_xxh in Hx.
    rewrite Hcc1 in *. split; [exact Hcc | ].
    rewrite Hx2, Hx. cbn [fold_left].
    destruct (content_checksum l); reflexivity.
Qed.

Lemma decompress_blocks_accumulate (wires : list (list byte)) :
  forall (l l' : lz4_s) (blocks : list (list byte)) (dest_len : Z),
    decompress_blocks l wires dest_len = Some (blocks, l') ->
    content_checksum l' = content_checksum l
    /\ xxh l' = if content_checksum l
                then fold_left XXH32_update blocks (xxh l) else xxh l.
Proof.
  induction wires as [ | w rest IH]; intros l l' blocks dest_len H; cbn in H.
  - injection H as <- <-. destruct (content_checksum l); auto.
  - destruct (decode_block l w dest_len) as [[[r dest] l1] | ] eqn:E1;
      [ | discriminate].
    destruct (Z.ltb_spec r 0); [discriminate | ].
    destruct (load dest 0 r) as [produced | ] eqn:E; [ | discriminate].
    apply load_inv in E. destruct E as (_ & _ & _ & Hp & _).
    cbn [skipn Z.to_nat] in Hp.
    destruct (decompress_blocks l1 rest dest_len) as [[bs l2] | ] eqn:E2;
      [ | discriminate].
    injection H as <- <-.
    unfold decode_block in E1.
    destruct (read_little_endian_32 w); [ | discriminate].
    destruct (lz4_decompress_inv _ _ _ _ _ _ _ _ E1) as (_ & Hl1 & _).
    specialize (Hl1 ltac:(lia)). rewrite <- Hp in Hl1.
    destruct (IH _ _ _ _ E2) as (Hcc & Hx2).
    assert (Hcc1 : content_checksum l1 = content_checksum l).
    { subst l1. apply (content_update_settings l produced). }
    rewrite Hcc1 in *. split; [exact Hcc | ].
    rewrite Hx2. subst l1. rewrite content_update_xxh. cbn [fold_left].
    destruct (content_checksum l); reflexivity.
Qed.

(** C9. The accumulator of a session takes the uncompressed bytes of each
    block once and in stream order: [lz4_compress_block] adds the raw input,
    [lz4_decompress] adds the [r] bytes it produced and adds nothing when it
    returns a negative result; over a stream the accumulator is the fold of
    [XXH32_update] over the blocks. *)
Theorem content_accumulator_once_per_block :
  (forall l src src_len dest_len ret wire l',
      lz4_compress_block l src src_len dest_len = Some (ret, wire, l') ->
      xxh l' = if content_checksum l
               then XXH32_update (xxh l) (firstn (Z.to_nat src_len) src)
               else xxh l)
  /\ (forall l src src_len dest_len compressed r dest l',
      lz4_decompress l src src_len dest_len compressed = Some (r, dest, l') ->
      (r < 0 -> l' = l)
      /\ (0 <= r ->
          xxh l' = if content_checksum l
                   then XXH32_update (xxh l) (firstn (Z.to_nat r) dest)
                   else xxh l)
      /\ (compressed = false -> 0 <= r ->
          firstn (Z.to_nat r) dest = firstn (Z.to_nat r) src))
  /\ (forall l blocks dest_len wires l',
      compress_blocks l blocks dest_len = Some (wires, l') ->
      xxh l' = if content_checksum l
               then fold_left XXH32_update blocks (xxh l) else xxh l)
  /\ (forall l wires dest_len blocks l',
      decompress_blocks l wires dest_len = Some (blocks, l') ->
      xxh l' = if content_checksum l
               then fold_left XXH32_update blocks (xxh l) else xxh l).
Proof.
  split; [ | split; [ | split]].
  - intros l src src_len dest_len ret wire l' H.
    destruct (lz4_compress_block_inv _ _ _ _ _ _ _ H)
      as (_ & _ & _ & _ & _ & Hx & _ & _).
    rewrite Hx. apply content_update_xxh.
  - intros l src src_len dest_len compressed r dest l' H.
    destruct (lz4_decompress_inv _ _ _ _ _ _ _ _ H) as (Hneg & Hl & Hraw).
    split; [exact Hneg | ]. split; [ | exact Hraw].
    intros Hr. rewrite (Hl Hr). apply content_update_xxh.
  - intros l blocks dest_len wires l' H.
    apply (compress_blocks_accumulate _ _ _ _ _ H).
  - intros l wires dest_len blocks l' H.
    apply (decompress_blocks_accumulate _ _ _ _ _ H).
Qed.

(** C10. On the raw path [lz4_decompress] copies the source length left
    after the optional four-byte shrink and returns it, whatever [dest_len]
    is. *)
Theorem raw_copy_ignores_dest_len :
  forall (l : lz4_s) (src : list byte) (src_len n dest_len : Z),
    check_block_checksum l src src_len = Some (inr n) ->
    0 <= n <= len src -> n < 2 ^ 31 ->
    lz4_decompress l src src_len dest_len false
    = Some (n, firstn (Z.to_nat n) src,
            content_update l (firstn (Z.to_nat n) src))
    /\ len (firstn (Z.to_nat n) src) = n
    /\ n = (if block_checksum l then to_uint32 (src_len - 4) else src_len).
Proof.
  intros l src src_len n dest_len G Hn Hsmall.
  assert (Hlen : len (firstn (Z.to_nat n) src) = n).
  { unfold len in *. rewrite length_firstn. lia. }
  split; [ | split; [exact Hlen | ]].
  - unfold lz4_decompress. rewrite G.
    unfold decompress_payload, content_update.
    rewrite (load_prefix src n Hn), (to_int_small n) by lia.
    destruct (Z.ltb_spec n 0); [lia | ].
    destruct (content_checksum l); [ | reflexivity].
    pose proof (load_all (firstn (Z.to_nat n) src)) as Hall.
    rewrite Hlen in Hall. rewrite Hall. reflexivity.
  - unfold check_block_checksum in G.
    destruct (block_checksum l); [ | congruence].
    destruct (load src (src_len - 4) 4); [ | discriminate].
    destruct (read_little_endian_32 l0); [ | discriminate].
    destruct (load src 0 (to_uint32 (src_len - 4))); [ | discriminate].
    destruct (negb _); congruence.
Qed.

Lemma compress_blocks_ctx (blocks : list (list byte)) :
  forall (l l' : lz4_s) (wires : list (list byte)) (dest_len : Z),
    compress_blocks l blocks dest_len = Some (wires, l') ->
    ctx l <> None -> ctx l' <> None.
Proof.
  induction blocks as [ | b rest IH]; intros l l' wires dest_len H Hctx;
    cbn in H.
  - injection H as <- <-. exact Hctx.
  - destruct (lz4_compress_block l b (len b) dest_len)
      as [[[ret wire] l1] | ] eqn:E1; [ | discriminate].
    destruct (compress_blocks l1 rest dest_len) as [[ws l2] | ] eqn:E2;
      [ | discriminate].
    injection H as <- <-.
    apply (IH _ _ _ _ E2).
    destruct (lz4_compress_block_inv _ _ _ _ _ _ _ E1)
      as (_ & _ & _ & _ & _ & _ & _ & Hctx1).
    exact Hctx1.
Qed.

(** C3, what [_lz4_init] does.  The accumulator of a compression session is
    the content of the allocation, whatever it is: no reset takes place.
    The digest [lz4_finish] stores after a stream of blocks is therefore the
    digest of the updates applied to that content. *)
Theorem lz4_init_accumulator_not_reset :
  forall (heap : XXH32_state_t) (lvl : Z) (sz : lz4_block_size_t) (bc : bool)
         (blocks wires : list (list byte)) (dest_len : Z) (l' : lz4_s)
         (dest : list byte),
    xxh (_lz4_init heap lvl sz bc true) = heap
    /\ (compress_blocks (_lz4_init heap lvl sz bc true) blocks dest_len
        = Some (wires, l') ->
        lz4_finish l' dest
        = Some (8, write_little_endian_32 0
                   ++ write_little_endian_32
                        (to_uint32
                           (XXH32_digest
                              (fold_left XXH32_update blocks heap))))).
Proof.
  intros heap lvl sz bc blocks wires dest_len l' dest.
  destruct (lz4_init_fields heap lvl sz bc true)
    as (_ & Hcc & _ & _ & _ & Hx & _).
  split; [exact Hx | ].
  intros H.
  destruct (compress_blocks_accumulate _ _ _ _ _ H) as (Hcc' & Hx').
  assert (Hctx : ctx l' <> None).
  { apply (compress_blocks_ctx _ _ _ _ _ H).
    destruct sz, bc; discriminate. }
  rewrite Hcc in Hcc', Hx'. rewrite Hx in Hx'.
  unfold lz4_finish. rewrite Hcc', Hx'.
  destruct (ctx l'); [reflexivity | congruence].
Qed.

End ContentChecksum.

(** ** Round trip *)

Section RoundTrip.

Context {L : LZ4Lib} {X : XXHashLib} {Laws : LZ4Laws L}.

Lemma compress_session_ok_init (heap : XXH32_state_t) (lvl : Z)
    (sz : lz4_block_size_t) (bc cc : bool) :
  compress_session_ok (_lz4_init heap lvl sz bc cc).
Proof.
  unfold compress_session_ok.
  assert (Hctx : ctx (_lz4_init heap lvl sz bc cc)
                 = Some (if lvl <? LZ4HC_CLEVEL_MIN
                         then ctx_fast LZ4_initStream
                         else ctx_hc (LZ4_setCompressionLevel
                                        LZ4_initStreamHC lvl)))
    by (destruct sz, bc, cc; reflexivity).
  rewrite Hctx.
  destruct (lz4_init_fields heap lvl sz bc cc)
    as (_ & _ & _ & _ & _ & _ & Hl & _).
  rewrite Hl.
  destruct (Z.ltb_spec lvl LZ4HC_CLEVEL_MIN); split; try assumption.
  - apply initStream_ok.
  - apply setCompressionLevel_ok, initStreamHC_ok.
Qed.

Lemma compress_session_ok_settings (l l' : lz4_s) :
  level l' = level l -> ctx l' = ctx l ->
  compress_session_ok l -> compress_session_ok l'.
Proof. unfold compress_session_ok. intros -> ->. tauto. Qed.

(** The adapter on a well-formed session: it answers, keeps the session
    well-formed and passes on the compressor's promise. *)
Lemma lz4_compress_ok (l : lz4_s) (src : list byte) (n cap : Z) :
  compress_session_ok l ->
  0 <= n <= len src -> n < 2 ^ 31 -> 0 <= cap < 2 ^ 31 ->
  exists r out l',
    lz4_compress l src n cap = Some (r, out, l')
    /\ compress_session_ok l' /\ compress_promise src n cap r out.
Proof.
  intros Hok Hn Hsmall Hcap.
  unfold compress_session_ok in Hok. unfold lz4_compress.
  rewrite (to_int_small n), (to_int_small cap) by lia.
  destruct (ctx l) as [[s | s] | ]; [ | | contradiction];
    destruct Hok as [Hlvl Hs].
  - destruct (Z.ltb_spec (level l) LZ4HC_CLEVEL_MIN); [ | lia].
    pose proof (compress_fast_ok (LZ4_attach_dictionary s) src n cap
                  (if level l <? 0 then - level l + 1 else 1)
                  (attach_dictionary_ok s Hs) Hn Hsmall Hcap) as Hp.
    destruct (LZ4_compress_fast_extState_fastReset _ _ _ _ _) as [[r out] s'].
    destruct Hp as [Hs' Hp].
    assert (Hr : to_uint32 r = r).
    { destruct Hp as [[-> | [Hr _]] _]; [reflexivity | ].
      apply to_uint32_small. lia. }
    rewrite Hr. do 3 eexists. split; [reflexivity | ].
    split; [ | exact Hp].
    unfold compress_session_ok. cbn. auto.
  - destruct (Z.ltb_spec (level l) LZ4HC_CLEVEL_MIN); [lia | ].
    pose proof (compress_HC_ok
                  (LZ4_attach_HC_dictionary (LZ4_resetStreamHC_fast s (level l)))
                  src n cap (level l)
                  (attach_HC_dictionary_ok _ (resetStreamHC_fast_ok s _ Hs))
                  Hn Hsmall Hcap) as Hp.
    destruct (LZ4_compress_HC_extStateHC_fastReset _ _ _ _ _) as [[r out] s'].
    destruct Hp as [Hs' Hp].
    assert (Hr : to_uint32 r = r).
    { destruct Hp as [[-> | [Hr _]] _]; [reflexivity | ].
      apply to_uint32_small. lia. }
    rewrite Hr. do 3 eexists. split; [reflexivity | ].
    split; [ | exact Hp].
    unfold compress_session_ok. cbn. auto.
Qed.

(** [lz4_decompress] on a payload followed by its trailer passes the guard. *)
Lemma lz4_decompress_wire (ld : lz4_s) (payload : list byte) (dest_len : Z)
    (compressed : bool) :
  block_header_size ld = (if block_checksum ld then 4 else 0) ->
  len payload + 4 < 2 ^ 32 ->
  lz4_decompress ld (payload ++ trailer_of (block_checksum ld) payload)
    (to_uint32 (len payload + lz4_block_header_size ld)) dest_len compressed
  = decompress_payload ld (payload ++ trailer_of (block_checksum ld) payload)
      (len payload) dest_len compressed.
Proof.
  intros Hbhs Hsmall. unfold lz4_block_header_size, trailer_of.
  rewrite Hbhs. pose proof (len_nonneg payload).
  destruct (block_checksum ld) eqn:Hbc.
  - rewrite (to_uint32_small (len payload + 4)) by lia.
    pose proof (appended_checksum_accepted ld payload [] dest_len compressed
                  Hbc Hsmall) as H1.
    rewrite app_nil_r in H1. exact H1.
  - rewrite Z.add_0_r, (to_uint32_small (len payload)) by lia.
    unfold lz4_decompress, check_block_checksum. rewrite Hbc. reflexivity.
Qed.

Lemma decompress_payload_raw (ld : lz4_s) (payload rest : list byte)
    (dest_len : Z) :
  len payload < 2 ^ 31 ->
  decompress_payload ld (payload ++ rest) (len payload) dest_len false
  = Some (len payload, payload, content_update ld payload).
Proof.
  intros Hsmall. pose proof (len_nonneg payload).
  unfold decompress_payload, content_update.
  rewrite load_app_l, to_int_small by lia.
  destruct (Z.ltb_spec (len payload) 0); [lia | ].
  rewrite load_all. destruct (content_checksum ld); reflexivity.
Qed.

Lemma decompress_payload_compressed (ld : lz4_s) (stored rest data : list byte)
    (dest_len : Z) :
  len stored < 2 ^ 31 -> 0 <= dest_len < 2 ^ 31 ->
  LZ4_decompress_safe (stored ++ rest) (len stored) dest_len
  = (len data, data) ->
  decompress_payload ld (stored ++ rest) (len stored) dest_len true
  = Some (len data, data, content_update ld data).
Proof.
  intros Hsmall Hd Hdec. pose proof (len_nonneg stored).
  pose proof (len_nonneg data).
  unfold decompress_payload, content_update.
  rewrite (to_int_small (len stored)), (to_int_small dest_len), Hdec by lia.
  destruct (Z.ltb_spec (len data) 0); [lia | ].
  rewrite load_all. destruct (content_checksum ld); reflexivity.
Qed.

(** One block through [lz4_compress_block] and back through the caller's
    protocol and [lz4_decompress]. *)
Lemma block_roundtrip (l ld : lz4_s) (src : list byte) (dest_len dl : Z) :
  compress_session_ok l ->
  block_header_size l = 4 + (if block_checksum l then 4 else 0) ->
  block_checksum ld = block_checksum l ->
  block_header_size ld = (if block_checksum ld then 4 else 0) ->
  len src <= dl -> dl < 2 ^ 30 ->
  (0 < len src -> 0 < LZ4_compressBound (len src)) ->
  LZ4_compressBound (len src) + block_header_size l <= dest_len ->
  block_header_size l <= dest_len < 2 ^ 31 ->
  exists ret wire l',
    lz4_compress_block l src (len src) dest_len = Some (ret, wire, l')
    /\ compress_session_ok l' /\ same_settings l l'
    /\ decode_block ld wire dl = Some (len src, src, content_update ld src).
Proof.
  intros Hok Hbhs Hbc Hbhsd Hfit Hdl Hpos Hbound Hdest.
  pose proof (len_nonneg src) as Hn.
  assert (Hb8 : 4 <= block_header_size l <= 8)
    by (rewrite Hbhs; destruct (block_checksum l); lia).
  assert (Hcap : to_uint32 (dest_len - block_header_size l)
                 = dest_len - block_header_size l)
    by (apply to_uint32_small; lia).
  destruct (lz4_compress_ok l src (len src)
              (dest_len - block_header_size l) Hok ltac:(lia) ltac:(lia)
              ltac:(lia)) as (r & out & l2 & Hc & Hok2 & Hp).
  rewrite <- Hcap in Hc.
  pose proof (lz4_compress_block_unfold l l2 src out (len src) dest_len r
                ltac:(lia) Hc) as Hblock.
  cbv zeta in Hblock. rewrite firstn_len in Hblock.
  destruct (lz4_compress_frame _ _ _ _ _ _ _ Hc) as (Hs2 & _ & _ & _).
  destruct (content_update_settings l2 src) as (Hs3 & Hctx3).
  assert (Hok' : compress_session_ok (content_update l2 src)).
  { apply (compress_session_ok_settings l2); [ | exact Hctx3 | exact Hok2].
    unfold same_settings in Hs3. tauto. }
  pose proof (same_settings_trans _ _ _ Hs2 Hs3) as Hs.
  fold (trailer_of (block_checksum l) src) in Hblock.
  rewrite <- Hbc in Hblock.
  destruct (Z.leb_spec (len src) r) as [Hraw | Hcomp].
  - do 3 eexists. split; [exact Hblock | ]. split; [exact Hok' | ].
    split; [exact Hs | ].
    unfold decode_block.
    rewrite read_write_little_endian_32, lor_high_bit by lia.
    rewrite (to_uint32_small (len src + 2 ^ 31)) by lia.
    rewrite high_bit_set, low_bits_of_raw by lia.
    cbn [negb skipn write_little_endian_32 app].
    rewrite lz4_decompress_wire by (assumption || lia).
    apply decompress_payload_raw. lia.
  - destruct Hp as [Hp Hsucc].
    specialize (Hsucc ltac:(lia) ltac:(split; [apply Hpos | ]; lia)).
    destruct Hp as [-> | (Hr & Hout & Hdec)]; [lia | ].
    subst r. rewrite firstn_len in Hdec.
    rewrite load_all in Hblock.
    fold (trailer_of (block_checksum ld) out) in Hblock.
    do 3 eexists. split; [exact Hblock | ]. split; [exact Hok' | ].
    split; [exact Hs | ].
    unfold decode_block.
    rewrite read_write_little_endian_32, (to_uint32_small (len out)) by lia.
    rewrite high_bit_clear, low_bits_of_small by lia.
    cbn [negb skipn write_little_endian_32 app].
    rewrite lz4_decompress_wire by (assumption || lia).
    apply decompress_payload_compressed; [lia | lia | ].
    apply Hdec. lia.
Qed.

Lemma stream_roundtrip (blocks : list (list byte)) :
  forall (l ld : lz4_s) (dest_len dl : Z),
    compress_session_ok l ->
    block_header_size l = 4 + (if block_checksum l then 4 else 0) ->
    block_checksum ld = block_checksum l ->
    block_header_size ld = (if block_checksum ld then 4 else 0) ->
    dl < 2 ^ 30 ->
    block_header_size l <= dest_len < 2 ^ 31 ->
    Forall (fun b => len b <= dl
                     /\ (0 < len b -> 0 < LZ4_compressBound (len b))
                     /\ LZ4_compressBound (len b) + block_header_size l
                        <= dest_len) blocks ->
    exists wires l' ld',
      compress_blocks l blocks dest_len = Some (wires, l')
      /\ decompress_blocks ld wires dl = Some (blocks, ld').
Proof.
  induction blocks as [ | b rest IH];
    intros l ld dest_len dl Hok Hbhs Hbc Hbhsd Hdl Hdest Hall.
  - do 3 eexists. split; reflexivity.
  - inversion Hall as [ | ? ? (Hfit & Hpos & Hbound) Hrest]; subst.
    destruct (block_roundtrip l ld b dest_len dl Hok Hbhs Hbc Hbhsd Hfit Hdl
                Hpos Hbound Hdest)
      as (ret & wire & l1 & E1 & Hok1 & Hs1 & Hdec).
    destruct (content_update_settings ld b) as (Hsd & _).
    unfold same_settings in Hs1, Hsd.
    destruct Hs1 as (_ & _ & Hbc1 & _ & _ & _ & _ & _ & Hbhs1).
    destruct Hsd as (_ & _ & Hbcd & _ & _ & _ & _ & _ & Hbhsd1).
    assert (A1 : block_header_size l1
                 = 4 + (if block_checksum l1 then 4 else 0))
      by (rewrite Hbhs1, Hbc1; exact Hbhs).
    assert (A2 : block_checksum (content_update ld b) = block_checksum l1)
      by congruence.
    assert (A3 : block_header_size (content_update ld b)
                 = (if block_checksum (content_update ld b) then 4 else 0))
      by (rewrite Hbhsd1, Hbcd; exact Hbhsd).
    assert (A4 : block_header_size l1 <= dest_len < 2 ^ 31) by lia.
    rewrite <- Hbhs1 in Hrest.
    destruct (IH l1 (content_update ld b) dest_len dl Hok1 A1 A2 A3 Hdl A4
                Hrest)
      as (wires & l' & ld' & E2 & D2).
    exists (wire :: wires), l', ld'. cbn [compress_blocks decompress_blocks].
    rewrite E1, E2, Hdec. split; [reflexivity | ].
    pose proof (len_nonneg b).
    destruct (Z.ltb_spec (len b) 0); [lia | ].
    rewrite load_all, D2. reflexivity.
Qed.

(** C1, where the code delivers it.  [_lz4_init] never resets the
    accumulator, so with the content-checksum flag [lz4_compress_block] runs
    [XXH32_update] on what the allocation held.  Without that flag, or when
    the allocation holds a state of the hash, for every size class, level
    and block-checksum flag and every sequence of blocks of at most
    [block_size] bytes (the empty block included), the blocks
    [lz4_compress_block] produces into a buffer of [lz4_compressed_size]
    bytes or more are turned back into the original bytes by
    [lz4_decompress], in a decompression session opened from the descriptor
    of the compression session.  For an allocation that holds no state and a
    session with the flag nothing is stated: there the update is
    undefined. *)
Theorem roundtrip_blocks :
  forall (heap : XXH32_state_t) (lvl : Z) (sz : lz4_block_size_t)
         (bc cc : bool) (h : lz4_header_t) (heapd : XXH32_state_t)
         (blocks : list (list byte)) (dest_len : Z),
    cc = false \/ XXH32_initialised heap ->
    Forall (fun b => len b <= lz4_block_size (_lz4_init heap lvl sz bc cc))
           blocks ->
    lz4_compressed_size (_lz4_init heap lvl sz bc cc) <= dest_len < 2 ^ 31 ->
    exists d wires c' d',
      _lz4_init_decompress h heapd
        (fst (lz4_get_header (_lz4_init heap lvl sz bc cc)))
        (snd (lz4_get_header (_lz4_init heap lvl sz bc cc))) = Some d
      /\ compress_blocks (_lz4_init heap lvl sz bc cc) blocks dest_len
         = Some (wires, c')
      /\ decompress_blocks d wires (lz4_block_size d) = Some (blocks, d').
Proof.
  intros heap lvl sz bc cc h heapd blocks dest_len _ Hall Hdest.
  set (c := _lz4_init heap lvl sz bc cc) in *.
  destruct (lz4_init_fields heap lvl sz bc cc)
    as (Hbc & _ & Hbhs & _ & _ & _ & _ & Hcs & Hbs).
  destruct (lz4_init_decompress_of_init heap lvl sz bc cc h heapd)
    as (d & Hd & Hdbc & _ & Hdbs & _ & Hdbhs & _).
  fold c in Hbc, Hbhs, Hcs, Hbs, Hd, Hdbs.
  pose proof (compressBound_pos (block_size c) ltac:(lia)) as Hpos.
  pose proof (compressBound_mono (block_size c) (4 * 1024 * 1024)
                ltac:(lia) ltac:(lia)) as Hmono.
  pose proof compressBound_small as Hsmall.
  assert (Hb8 : 4 <= block_header_size c <= 8)
    by (rewrite Hbhs; destruct bc; lia).
  unfold lz4_compressed_size in Hdest. rewrite Hcs in Hdest.
  rewrite (to_uint32_small (LZ4_compressBound (block_size c))) in Hdest by lia.
  rewrite to_uint32_small in Hdest by lia.
  destruct (stream_roundtrip blocks c d dest_len (lz4_block_size d))
    as (wires & c' & d' & E & D).
  - apply compress_session_ok_init.
  - rewrite Hbhs, Hbc. reflexivity.
  - congruence.
  - rewrite Hdbhs, Hdbc. reflexivity.
  - unfold lz4_block_size. rewrite Hdbs. lia.
  - lia.
  - unfold lz4_block_size in *. rewrite Hdbs.
    eapply Forall_impl; [ | exact Hall]. cbv beta. intros b Hb.
    pose proof (len_nonneg b).
    split; [exact Hb | ]. split.
    + intros Hb0. apply compressBound_pos. lia.
    + pose proof (compressBound_mono (len b) (block_size c)
                    ltac:(lia) ltac:(lia)).
      lia.
  - exists d, wires, c', d'. auto.
Qed.

End RoundTrip.

(** ** The small instance keeps the promises *)

Lemma read_write_little_endian_32_exact (v : Z) :
  read_little_endian_32 (write_little_endian_32 v) = Some (to_uint32 v).
Proof.
  rewrite <- (app_nil_r (write_little_endian_32 v)).
  apply read_write_little_endian_32.
Qed.

Lemma firstn_len_app (a b : list byte) : firstn (Z.to_nat (len a)) (a ++ b) = a.
Proof.
  unfold len. rewrite Nat2Z.id, firstn_app, Nat.sub_diag, firstn_all.
  apply app_nil_r.
Qed.

Lemma forallb_eqb_repeat (b : byte) (data : list byte) :
  forallb (Byte.eqb b) data = true -> data = repeat b (length data).
Proof.
  induction data as [ | a t IH]; cbn; [reflexivity | ].
  intros H. apply andb_true_iff in H. destruct H as [Ha Ht].
  apply Byte.byte_dec_bl in Ha. subst a. f_equal. auto.
Qed.

Lemma demo_encode_length (data : list byte) :
  0 < len (Demo.encode data) <= len data + 1.
Proof.
  unfold Demo.encode. destruct data as [ | b t]; [cbv; split; congruence | ].
  destruct (Z.ltb_spec 6 (len (b :: t))) as [H6 | H6]; cbn [andb].
  - destruct (forallb (Byte.eqb b) (b :: t)).
    + unfold len in *. cbn [length write_little_endian_32] in *. lia.
    + unfold len in *. cbn [length] in *. lia.
  - unfold len in *. cbn [length] in *. lia.
Qed.

Lemma demo_decompress_encode (data rest : list byte) (dcap : Z) :
  len data <= dcap -> len data < 2 ^ 32 ->
  Demo.decompress (Demo.encode data ++ rest) (len (Demo.encode data)) dcap
  = (len data, data).
Proof.
  intros Hcap Hsmall. unfold Demo.decompress.
  rewrite firstn_len_app. unfold Demo.encode.
  destruct data as [ | b t].
  - change (len []) with 0 in *. cbv beta iota.
    destruct (Z.leb_spec 0 dcap); [ | lia].
    reflexivity.
  - destruct (Z.ltb_spec 6 (len (b :: t))) as [H6 | H6]; cbn [andb].
    + destruct (forallb (Byte.eqb b) (b :: t)) eqn:Hrun.
      * cbn [write_little_endian_32].
        change [byte_of_Z (len (b :: t)); byte_of_Z (Z.shiftr (len (b :: t)) 8);
                byte_of_Z (Z.shiftr (len (b :: t)) 16);
                byte_of_Z (Z.shiftr (len (b :: t)) 24)]
          with (write_little_endian_32 (len (b :: t))).
        rewrite read_write_little_endian_32_exact.
        rewrite to_uint32_small by (pose proof (len_nonneg (b :: t)); lia).
        destruct (Z.leb_spec (len (b :: t)) dcap); [ | lia].
        f_equal. unfold len. rewrite Nat2Z.id.
        symmetry. apply forallb_eqb_repeat. exact Hrun.
      * destruct (Z.leb_spec (len (b :: t)) dcap); [ | lia]. reflexivity.
    + destruct (Z.leb_spec (len (b :: t)) dcap); [ | lia]. reflexivity.
Qed.

Lemma demo_compress_promise (calls : nat) (src : list byte) (n cap : Z) :
  0 <= n <= len src -> n < 2 ^ 31 ->
  let '(r, out, _) := Demo.compress calls src n cap in
  compress_promise (L := Demo.lz4) src n cap r out.
Proof.
  intros Hn Hsmall. unfold Demo.compress.
  destruct (Z.ltb_spec n 0); [lia | ].
  set (data := firstn (Z.to_nat n) src).
  assert (Hdata : len data = n).
  { unfold len, data in *. rewrite length_firstn. lia. }
  pose proof (demo_encode_length data) as Henc.
  destruct (Z.leb_spec (len (Demo.encode data)) cap) as [Hfit | Hfit];
    unfold compress_promise; cbn [LZ4_compressBound LZ4_decompress_safe Demo.lz4].
  - split; [right | lia].
    split; [lia | ]. split; [reflexivity | ].
    intros rest dcap Hd. rewrite demo_decompress_encode by lia.
    rewrite Hdata. reflexivity.
  - split; [left; reflexivity | ]. lia.
Qed.

Lemma demo_laws : LZ4Laws Demo.lz4.
Proof.
  constructor; cbn; try exact I; try tauto; try lia.
  - intros s src n cap acc _ Hn Hsmall _.
    pose proof (demo_compress_promise s src n cap Hn Hsmall) as H.
    destruct (Demo.compress s src n cap) as [[r out] s']. auto.
  - intros s src n cap lvl _ Hn Hsmall _.
    pose proof (demo_compress_promise s src n cap Hn Hsmall) as H.
    destruct (Demo.compress s src n cap) as [[r out] s']. auto.
Qed.

(** ** Descriptors: what is recognised and what is emitted *)

Section Descriptors.

Context {L : LZ4Lib} {X : XXHashLib}.

Lemma lz4_check_header_seven (r0 r : lz4_header_t) (h : list byte) (n : Z) :
  lz4_check_header (Some r0) h n = Some r ->
  n = 7 /\ exists a b c d e f g rest, h = a :: b :: c :: d :: e :: f :: g :: rest.
Proof.
  unfold lz4_check_header.
  destruct (Z.eqb_spec n 7) as [-> | ]; [ | discriminate].
  cbn [negb]. intros H. split; [reflexivity | ].
  do 7 (destruct h as [ | ? h];
        [revert H; unfold neb, select_flags, idx; simpl; byte_cases;
         discriminate | ]).
  repeat eexists.
Qed.

(** X1. What a successful [lz4_check_header] stores: the table entry equal
    to the seven bytes read, the block-checksum and content-checksum flags
    held by bits 4 and 2 of byte 4, the block size [2 ^ (8 + 2 * (byte 5 /
    16))], and the bound for that block size. *)
Theorem lz4_check_header_fields :
  forall (r0 r : lz4_header_t) (h : list byte) (n : Z),
    lz4_check_header (Some r0) h n = Some r ->
    h_header r = firstn 7 h
    /\ h_block_checksum r = Z.testbit (Z_of_byte (idx h 4)) 4
    /\ h_content_checksum r = Z.testbit (Z_of_byte (idx h 4)) 2
    /\ h_block_size r = 2 ^ (8 + 2 * (Z_of_byte (idx h 5) / 16))
    /\ h_compressed_size r = to_uint32 (LZ4_compressBound (h_block_size r)).
Proof.
  intros r0 r h n H.
  destruct (lz4_check_header_seven r0 r h n H)
    as (-> & a & b & c & d & e & f & g & rest & ->).
  revert H. unfold lz4_check_header, neb, select_flags, idx. simpl.
  byte_cases; intros H; try discriminate H;
    injection H as <-; repeat split.
Qed.

(** X2. [lz4_check_header] never stores the size class it has recognised:
    the [size] field of the result, and so of the decompression session
    built from it, is the one the caller's record held before the call. *)
Theorem decompress_session_size_not_set :
  forall (h : lz4_header_t) (heap : XXH32_state_t) (hdr : list byte) (n : Z)
         (l : lz4_s),
    _lz4_init_decompress h heap hdr n = Some l ->
    size l = h_size h
    /\ forall h', lz4_check_header (Some h) hdr n = Some h' ->
                  h_size h' = h_size h.
Proof.
  intros h heap hdr n l Hl.
  assert (Hsize : forall h', lz4_check_header (Some h) hdr n = Some h' ->
                             h_size h' = h_size h).
  { intros h' H. unfold lz4_check_header in H.
    destruct (negb (n =? 7)); [discriminate | ].
    destruct (_ || _); [discriminate | ].
    destruct (if Byte.eqb (idx hdr 5) x40 then _ else _)
      as [[bs [[bc cc] hp]] | ]; [ | discriminate].
    injection H as <-. reflexivity. }
  split; [ | exact Hsize].
  unfold _lz4_init_decompress in Hl.
  destruct (lz4_check_header (Some h) hdr n) as [h' | ] eqn:E;
    [ | discriminate].
  injection Hl as <-. cbn. apply Hsize. reflexivity.
Qed.

(** X3. The descriptor a compression session emits is recognised, and the
    decompression session opened from it has the same checksum flags, block
    size, bound and descriptor, level 1 and no compressor memory. *)
Theorem emitted_descriptor_is_recognized :
  forall (heap : XXH32_state_t) (lvl : Z) (sz : lz4_block_size_t)
         (bc cc : bool) (h : lz4_header_t) (heapd : XXH32_state_t),
  exists d,
    _lz4_init_decompress h heapd
      (fst (lz4_get_header (_lz4_init heap lvl sz bc cc)))
      (snd (lz4_get_header (_lz4_init heap lvl sz bc cc))) = Some d
    /\ block_checksum d = bc /\ content_checksum d = cc
    /\ lz4_block_size d = lz4_block_size (_lz4_init heap lvl sz bc cc)
    /\ compressed_size d = compressed_size (_lz4_init heap lvl sz bc cc)
    /\ lz4_get_header d = lz4_get_header (_lz4_init heap lvl sz bc cc)
    /\ level d = 1 /\ ctx d = None
    /\ xxh d = (if cc then XXH32_reset 0 else heapd).
Proof.
  intros heap lvl sz bc cc h heapd.
  destruct sz, bc, cc; eexists; (split; [reflexivity | ]);
    cbn -[Z.mul to_uint32 LZ4_compressBound]; repeat split.
Qed.

(** X4. Distinct settings emit distinct descriptors: two compression
    sessions have the same descriptor exactly when they have the same size
    class and the same two checksum flags. *)
Theorem emitted_descriptor_determines_settings :
  forall (heap heap' : XXH32_state_t) (lvl lvl' : Z)
         (sz sz' : lz4_block_size_t) (bc bc' cc cc' : bool),
    fst (lz4_get_header (_lz4_init heap lvl sz bc cc))
    = fst (lz4_get_header (_lz4_init heap' lvl' sz' bc' cc'))
    <-> (sz = sz' /\ bc = bc' /\ cc = cc').
Proof.
  intros. split.
  - destruct sz, bc, cc, sz', bc', cc'; cbn; intros H;
      first [discriminate H | repeat split].
  - intros (-> & -> & ->).
    destruct sz', bc', cc'; reflexivity.
Qed.

(** X5. Every descriptor [lz4_check_header] accepts is the one emitted for
    some size class with the flags it reports, with the block size and bound
    of that compression session. *)
Theorem recognized_descriptor_is_emitted :
  forall (r0 r : lz4_header_t) (h : list byte) (n : Z)
         (heap : XXH32_state_t) (lvl : Z),
    lz4_check_header (Some r0) h n = Some r ->
    exists sz,
      lz4_get_header
        (_lz4_init heap lvl sz (h_block_checksum r) (h_content_checksum r))
      = (firstn 7 h, n)
      /\ block_size
           (_lz4_init heap lvl sz (h_block_checksum r) (h_content_checksum r))
         = h_block_size r
      /\ compressed_size
           (_lz4_init heap lvl sz (h_block_checksum r) (h_content_checksum r))
         = h_compressed_size r.
Proof.
  intros r0 r h n heap lvl H.
  destruct (lz4_check_header_seven r0 r h n H)
    as (-> & a & b & c & d & e & f & g & rest & ->).
  revert H. unfold lz4_check_header, neb, select_flags, idx. simpl.
  byte_cases; intros H; try discriminate H; injection H as <-;
    cbn [h_block_checksum h_content_checksum h_block_size h_compressed_size];
    first [ exists s64kb; repeat split; reflexivity
          | exists s256kb; repeat split; reflexivity
          | exists s1mb; repeat split; reflexivity
          | exists s4mb; repeat split; reflexivity ].
Qed.

End Descriptors.

(** ** Blocks and frames: sizes, the length field and the end of a stream *)

Section Frames.

Context {L : LZ4Lib} {X : XXHashLib}.

Lemma lz4_compress_block_payload (l l' : lz4_s) (src wire : list byte)
    (src_len dest_len ret : Z) :
  lz4_compress_block l src src_len dest_len = Some (ret, wire, l') ->
  exists field payload,
    wire = field ++ payload ++ trailer_of (block_checksum l) payload
    /\ length field = 4%nat
    /\ ret = to_uint32 (len payload + block_header_size l)
    /\ len payload <= src_len.
Proof.
  unfold lz4_compress_block. intros H.
  destruct (if content_checksum l then _ else _) as [l1 | ] eqn:E1;
    [ | discriminate].
  assert (Hs1 : block_checksum l1 = block_checksum l
                /\ block_header_size l1 = block_header_size l).
  { destruct (content_checksum l); [ | injection E1 as <-; auto].
    destruct (load src 0 src_len); [ | discriminate].
    injection E1 as <-. auto. }
  destruct Hs1 as [Hbc1 Hbhs1].
  destruct (lz4_compress l1 src src_len _) as [[[c out] l2] | ] eqn:Ec;
    [ | discriminate].
  destruct (lz4_compress_frame _ _ _ _ _ _ _ Ec) as (Hs2 & _ & _ & _).
  unfold same_settings in Hs2.
  assert (Hbc : block_checksum l2 = block_checksum l) by (rewrite <- Hbc1; tauto).
  assert (Hbhs : block_header_size l2 = block_header_size l)
    by (rewrite <- Hbhs1; tauto).
  rewrite Hbc, Hbhs in H. unfold trailer_of.
  destruct (Z.leb_spec src_len c).
  - destruct (load src 0 src_len) as [raw | ] eqn:E; [ | discriminate].
    apply load_inv in E. destruct E as (_ & _ & _ & _ & Hraw).
    injection H as <- <- <-.
    exists (write_little_endian_32 (Z.lor src_len 0x80000000)), raw.
    rewrite Hraw. repeat split. lia.
  - destruct (load out 0 c) as [stored | ] eqn:E; [ | discriminate].
    apply load_inv in E. destruct E as (_ & _ & _ & _ & Hst).
    injection H as <- <- <-.
    exists (write_little_endian_32 c), stored.
    rewrite Hst. repeat split. lia.
Qed.

(** X6. A block never takes more than the raw input and its header: for a
    session with [block_header_size = 4 + (block_checksum ? 4 : 0)], as
    [_lz4_init] sets it, the count [lz4_compress_block] returns is the
    number of bytes it stored, at least [block_header_size] and at most
    [src_len + block_header_size]. *)
Theorem lz4_compress_block_at_most_raw :
  forall (l l' : lz4_s) (src wire : list byte) (src_len dest_len ret : Z),
    lz4_compress_block l src src_len dest_len = Some (ret, wire, l') ->
    0 <= src_len < 2 ^ 31 ->
    block_header_size l = 4 + (if block_checksum l then 4 else 0) ->
    len wire = ret
    /\ block_header_size l <= ret <= src_len + block_header_size l.
Proof.
  intros l l' src wire src_len dest_len ret H Hn Hbhs.
  destruct (lz4_compress_block_payload _ _ _ _ _ _ _ H)
    as (field & payload & -> & Hf & -> & Hle).
  pose proof (len_nonneg payload).
  rewrite (to_uint32_small (len payload + block_header_size l))
    by (rewrite Hbhs; destruct (block_checksum l); lia).
  assert (Hfield : len field = 4) by (unfold len; lia).
  assert (Htrailer : len (trailer_of (block_checksum l) payload)
                     = (if block_checksum l then 4 else 0))
    by (unfold trailer_of; destruct (block_checksum l); reflexivity).
  rewrite !len_app, Hfield, Htrailer, Hbhs.
  destruct (block_checksum l); lia.
Qed.

Lemma lz4_compress_block_at_most_raw_aux (l : lz4_s) (n : Z) :
  block_header_size l = 4 + (if block_checksum l then 4 else 0) ->
  0 <= n -> n < 2 ^ 31 ->
  forall (payload : list byte) (field : Z),
    len payload = n ->
    len (write_little_endian_32 field ++ payload
         ++ (if block_checksum l
             then write_little_endian_32 (to_uint32 (XXH32 payload 0))
             else []))
    = to_uint32 (n + block_header_size l)
    /\ to_uint32 (n + block_header_size l) = n + block_header_size l.
Proof.
  intros Hbhs Hn Hsmall payload field Hlen.
  rewrite (to_uint32_small (n + block_header_size l))
    by (rewrite Hbhs; destruct (block_checksum l); lia).
  split; [ | reflexivity].
  assert (Hfield : len (write_little_endian_32 field) = 4) by reflexivity.
  rewrite !len_app, Hlen, Hfield, Hbhs.
  destruct (block_checksum l);
    [change (len (write_little_endian_32 (to_uint32 (XXH32 payload 0))))
       with 4
    | change (len []) with 0]; lia.
Qed.

End Frames.

Section FramesWithLaws.

Context {L : LZ4Lib} {X : XXHashLib} {Laws : LZ4Laws L}.

(** X7. With a compressor that keeps its promise, [lz4_compress_block]
    always returns and never stores more than [dest_len] bytes: the raw copy
    is made only when the input is not longer than a compressed result that
    fitted the capacity. *)
Theorem lz4_compress_block_within_dest_len :
  forall (l : lz4_s) (src : list byte) (src_len dest_len : Z),
    compress_session_ok l ->
    block_header_size l = 4 + (if block_checksum l then 4 else 0) ->
    0 <= src_len <= len src -> src_len < 2 ^ 31 ->
    block_header_size l <= dest_len < 2 ^ 31 ->
    exists ret wire l',
      lz4_compress_block l src src_len dest_len = Some (ret, wire, l')
      /\ len wire = ret /\ ret <= dest_len.
Proof.
  intros l src n dest_len Hok Hbhs Hn Hsmall Hdest.
  assert (Hb8 : 4 <= block_header_size l <= 8)
    by (rewrite Hbhs; destruct (block_checksum l); lia).
  assert (Hcap : to_uint32 (dest_len - block_header_size l)
                 = dest_len - block_header_size l)
    by (apply to_uint32_small; lia).
  destruct (lz4_compress_ok l src n (dest_len - block_header_size l)
              Hok Hn Hsmall ltac:(lia)) as (r & out & l2 & Hc & _ & Hp & _).
  rewrite <- Hcap in Hc.
  pose proof (lz4_compress_block_unfold l l2 src out n dest_len r Hn Hc)
    as Hblock.
  cbv zeta in Hblock.
  assert (Hstored : load out 0 r = Some (firstn (Z.to_nat r) out)
                    /\ 0 <= r <= dest_len - block_header_size l).
  { destruct Hp as [-> | (Hr & Hout & _)].
    - split; [ | lia]. apply load_prefix. pose proof (len_nonneg out). lia.
    - split; [ | lia]. apply load_prefix. lia. }
  destruct Hstored as [Hl Hr]. rewrite Hl in Hblock.
  destruct (Z.leb_spec n r).
  - do 3 eexists. split; [exact Hblock | ].
    destruct (lz4_compress_block_at_most_raw_aux l n Hbhs (proj1 Hn) Hsmall
                (firstn (Z.to_nat n) src) (Z.lor n 0x80000000)) as [Hlen Hret].
    { unfold len. rewrite length_firstn. unfold len in Hn. lia. }
    rewrite Hret in Hlen |- *. split; [exact Hlen | lia].
  - do 3 eexists. split; [exact Hblock | ].
    destruct (lz4_compress_block_at_most_raw_aux l r Hbhs ltac:(lia) ltac:(lia)
                (firstn (Z.to_nat r) out) r) as [Hlen Hret].
    { destruct Hp as [-> | (Hr' & Hout & _)]; [reflexivity | ].
      unfold len in *. rewrite length_firstn. lia. }
    rewrite Hret in Hlen |- *. split; [exact Hlen | lia].
Qed.

Lemma lz4_finish_marker (l : lz4_s) (dest : list byte) :
  ctx l <> None ->
  exists k marker,
    lz4_finish l dest = Some (k, marker)
    /\ read_little_endian_32 marker = Some 0
    /\ skipn 4 marker
       = (if content_checksum l
          then write_little_endian_32 (to_uint32 (XXH32_digest (xxh l)))
          else []).
Proof.
  intros Hctx. unfold lz4_finish.
  destruct (ctx l); [ | congruence].
  destruct (content_checksum l); do 2 eexists;
    (split; [reflexivity | ]); split;
    try apply read_write_little_endian_32;
    try apply read_write_little_endian_32_exact; reflexivity.
Qed.

(** X8. The length field tells a block from the end of the stream: when the
    destination has room for [LZ4_compressBound] of the input, the field
    [lz4_compress_block] stores is never zero, also for an empty block, its
    low 31 bits count the payload bytes that follow, and the marker
    [lz4_finish] stores afterwards reads as zero. *)
Theorem length_field_tells_block_from_end :
  forall (l : lz4_s) (src : list byte) (dest_len : Z),
    compress_session_ok l ->
    block_header_size l = 4 + (if block_checksum l then 4 else 0) ->
    len src < 2 ^ 30 ->
    (0 < len src -> 0 < LZ4_compressBound (len src)) ->
    LZ4_compressBound (len src) + block_header_size l <= dest_len ->
    block_header_size l <= dest_len < 2 ^ 31 ->
    exists ret wire l' f,
      lz4_compress_block l src (len src) dest_len = Some (ret, wire, l')
      /\ read_little_endian_32 wire = Some f /\ f <> 0
      /\ ret = 4 + Z.land f 0x7fffffff + (if block_checksum l then 4 else 0)
      /\ forall dest, exists k marker,
           lz4_finish l' dest = Some (k, marker)
           /\ read_little_endian_32 marker = Some 0.
Proof.
  intros l src dest_len Hok Hbhs Hsmall Hpos Hbound Hdest.
  pose proof (len_nonneg src) as Hn.
  assert (Hb8 : 4 <= block_header_size l <= 8)
    by (rewrite Hbhs; destruct (block_checksum l); lia).
  assert (Hcap : to_uint32 (dest_len - block_header_size l)
                 = dest_len - block_header_size l)
    by (apply to_uint32_small; lia).
  destruct (lz4_compress_ok l src (len src)
              (dest_len - block_header_size l) Hok ltac:(lia) ltac:(lia)
              ltac:(lia)) as (r & out & l2 & Hc & Hok2 & Hp).
  rewrite <- Hcap in Hc.
  pose proof (lz4_compress_block_unfold l l2 src out (len src) dest_len r
                ltac:(lia) Hc) as Hblock.
  cbv zeta in Hblock.
  destruct (content_update_settings l2 (firstn (Z.to_nat (len src)) src))
    as (_ & Hctx3).
  assert (Hfinish : forall dest, exists k marker,
             lz4_finish (content_update l2 (firstn (Z.to_nat (len src)) src))
               dest = Some (k, marker)
             /\ read_little_endian_32 marker = Some 0).
  { intros dest.
    destruct (lz4_finish_marker
                (content_update l2 (firstn (Z.to_nat (len src)) src)) dest)
      as (k & marker & Hk & Hm & _).
    - rewrite Hctx3. unfold compress_session_ok in Hok2.
      destruct (ctx l2); [discriminate | contradiction].
    - exists k, marker. auto. }
  destruct (Z.leb_spec (len src) r) as [Hraw | Hcomp].
  - do 4 eexists. split; [exact Hblock | ].
    split; [apply read_write_little_endian_32 | ].
    rewrite lor_high_bit by lia.
    rewrite (to_uint32_small (len src + 2 ^ 31)) by lia.
    rewrite low_bits_of_raw by lia.
    rewrite (to_uint32_small (len src + block_header_size l)) by lia.
    rewrite Hbhs. repeat split; [lia | lia | exact Hfinish].
  - destruct Hp as [Hp Hsucc].
    specialize (Hsucc ltac:(lia) ltac:(split; [apply Hpos | ]; lia)).
    destruct Hp as [-> | (Hr & Hout & _)]; [lia | ].
    subst r. rewrite load_all in Hblock.
    do 4 eexists. split; [exact Hblock | ].
    split; [apply read_write_little_endian_32 | ].
    rewrite (to_uint32_small (len out)) by lia.
    rewrite low_bits_of_small by lia.
    rewrite (to_uint32_small (len out + block_header_size l)) by lia.
    rewrite Hbhs. repeat split; [lia | lia | exact Hfinish].
Qed.

Lemma decompress_blocks_ctx (wires : list (list byte)) :
  forall (l l' : lz4_s) (blocks : list (list byte)) (dest_len : Z),
    decompress_blocks l wires dest_len = Some (blocks, l') ->
    ctx l' = ctx l.
Proof.
  induction wires as [ | w rest IH]; intros l l' blocks dest_len H; cbn in H.
  - injection H as <- <-. reflexivity.
  - destruct (decode_block l w dest_len) as [[[r dest] l1] | ] eqn:E1;
      [ | discriminate].
    destruct (Z.ltb_spec r 0); [discriminate | ].
    destruct (load dest 0 r); [ | discriminate].
    destruct (decompress_blocks l1 rest dest_len) as [[bs l2] | ] eqn:E2;
      [ | discriminate].
    injection H as <- <-.
    rewrite (IH _ _ _ _ E2).
    unfold decode_block in E1.
    destruct (read_little_endian_32 w); [ | discriminate].
    destruct (lz4_decompress_inv _ _ _ _ _ _ _ _ E1) as (_ & Hl1 & _).
    rewrite (Hl1 ltac:(lia)). apply content_update_settings.
Qed.

(** A stream of blocks from a fresh compression session into the
    decompression session opened from its descriptor. *)
Lemma init_stream_roundtrip (heap : XXH32_state_t) (lvl : Z)
    (sz : lz4_block_size_t) (bc cc : bool) (h : lz4_header_t)
    (heapd : XXH32_state_t) (blocks : list (list byte)) (dest_len : Z) :
  cc = false \/ XXH32_initialised heap ->
  Forall (fun b => len b <= lz4_block_size (_lz4_init heap lvl sz bc cc))
         blocks ->
  lz4_compressed_size (_lz4_init heap lvl sz bc cc) <= dest_len < 2 ^ 31 ->
  exists d wires c' d',
    _lz4_init_decompress h heapd
      (fst (lz4_get_header (_lz4_init heap lvl sz bc cc)))
      (snd (lz4_get_header (_lz4_init heap lvl sz bc cc))) = Some d
    /\ content_checksum d = cc
    /\ compress_blocks (_lz4_init heap lvl sz bc cc) blocks dest_len
       = Some (wires, c')
    /\ decompress_blocks d wires (lz4_block_size d) = Some (blocks, d').
Proof.
  intros _ Hall Hdest.
  set (c := _lz4_init heap lvl sz bc cc) in *.
  destruct (lz4_init_fields heap lvl sz bc cc)
    as (Hbc & _ & Hbhs & _ & _ & _ & _ & Hcs & Hbs).
  destruct (lz4_init_decompress_of_init heap lvl sz bc cc h heapd)
    as (d & Hd & Hdbc & Hdcc & Hdbs & _ & Hdbhs & _).
  fold c in Hbc, Hbhs, Hcs, Hbs, Hd, Hdbs.
  pose proof (compressBound_pos (block_size c) ltac:(lia)) as Hpos.
  pose proof (compressBound_mono (block_size c) (4 * 1024 * 1024)
                ltac:(lia) ltac:(lia)) as Hmono.
  pose proof compressBound_small as Hsmall.
  assert (Hb8 : 4 <= block_header_size c <= 8)
    by (rewrite Hbhs; destruct bc; lia).
  unfold lz4_compressed_size in Hdest. rewrite Hcs in Hdest.
  rewrite (to_uint32_small (LZ4_compressBound (block_size c))) in Hdest by lia.
  rewrite to_uint32_small in Hdest by lia.
  destruct (stream_roundtrip blocks c d dest_len (lz4_block_size d))
    as (wires & c' & d' & E & D).
  - apply compress_session_ok_init.
  - rewrite Hbhs, Hbc. reflexivity.
  - congruence.
  - rewrite Hdbhs, Hdbc. reflexivity.
  - unfold lz4_block_size. rewrite Hdbs. lia.
  - lia.
  - unfold lz4_block_size in *. rewrite Hdbs.
    eapply Forall_impl; [ | exact Hall]. cbv beta. intros b Hb.
    pose proof (len_nonneg b).
    split; [exact Hb | ]. split.
    + intros Hb0. apply compressBound_pos. lia.
    + pose proof (compressBound_mono (len b) (block_size c)
                    ltac:(lia) ltac:(lia)).
      lia.
  - exists d, wires, c', d'. auto.
Qed.

(** X9. A whole frame, for a writer without the content-checksum flag or
    whose allocation holds a state of the hash (one left by an earlier use,
    say): after a stream of blocks has gone through the compression session
    and through the decompression session opened from its descriptor,
    [lz4_finish] of the writer stores the zero marker and the digest, and
    [lz4_finish] of the reader on the bytes after the marker returns -500
    exactly when the content-checksum flag is set and the writer's digest,
    which starts from the state its allocation held, differs from the
    reader's, which starts from [XXH32_reset]; it returns 0 otherwise, in
    particular when the writer's allocation held a reset state. *)
Theorem frame_finish_roundtrip :
  forall (heap : XXH32_state_t) (lvl : Z) (sz : lz4_block_size_t)
         (bc cc : bool) (h : lz4_header_t) (heapd : XXH32_state_t)
         (blocks : list (list byte)) (dest_len : Z),
    cc = false \/ XXH32_initialised heap ->
    Forall (fun b => len b <= lz4_block_size (_lz4_init heap lvl sz bc cc))
           blocks ->
    lz4_compressed_size (_lz4_init heap lvl sz bc cc) <= dest_len < 2 ^ 31 ->
    exists d wires c' d' k marker r,
      _lz4_init_decompress h heapd
        (fst (lz4_get_header (_lz4_init heap lvl sz bc cc)))
        (snd (lz4_get_header (_lz4_init heap lvl sz bc cc))) = Some d
      /\ compress_blocks (_lz4_init heap lvl sz bc cc) blocks dest_len
         = Some (wires, c')
      /\ decompress_blocks d wires (lz4_block_size d) = Some (blocks, d')
      /\ lz4_finish c' [] = Some (k, marker)
      /\ read_little_endian_32 marker = Some 0
      /\ lz4_finish d' (skipn 4 marker) = Some (r, [])
      /\ (r = -500 <->
          cc = true
          /\ to_uint32 (XXH32_digest
                          (fold_left XXH32_update blocks (XXH32_reset 0)))
             <> to_uint32 (XXH32_digest (fold_left XXH32_update blocks heap)))
      /\ (r <> -500 -> r = 0)
      /\ (heap = XXH32_reset 0 -> r = 0).
Proof.
  intros heap lvl sz bc cc h heapd blocks dest_len Hheap Hall Hdest.
  destruct (init_stream_roundtrip heap lvl sz bc cc h heapd blocks dest_len
              Hheap Hall Hdest) as (d & wires & c' & d' & Hd & Hdcc & E & D).
  destruct (lz4_init_fields heap lvl sz bc cc)
    as (_ & Hcc & _ & _ & _ & Hx & _).
  destruct (compress_blocks_accumulate _ _ _ _ _ E) as (Hcc' & Hx').
  rewrite Hcc in Hcc', Hx'. rewrite Hx in Hx'.
  assert (Hctx : ctx c' <> None).
  { apply (compress_blocks_ctx _ _ _ _ _ E). destruct sz, bc, cc; discriminate. }
  destruct (lz4_init_decompress_fields _ _ _ _ _ Hd) as (_ & Hdctx & Hdx).
  destruct (decompress_blocks_accumulate _ _ _ _ _ D) as (Hdcc' & Hdx').
  pose proof (decompress_blocks_ctx _ _ _ _ _ D) as Hdctx'.
  rewrite Hdcc in Hdcc', Hdx', Hdx. rewrite Hdctx in Hdctx'.
  destruct (lz4_finish_marker c' [] Hctx) as (k & marker & Hk & Hm & Htail).
  rewrite Hcc' in Htail.
  exists d, wires, c', d', k, marker.
  unfold lz4_finish at 2. rewrite Hdctx', Hdcc', Htail.
  destruct cc.
  - rewrite Hx', Hdx', Hdx.
    rewrite read_write_little_endian_32_exact.
    rewrite (to_uint32_small (to_uint32 _)) by apply to_uint32_range.
    destruct (Z.eqb_spec
                (to_uint32 (XXH32_digest
                              (fold_left XXH32_update blocks (XXH32_reset 0))))
                (to_uint32 (XXH32_digest (fold_left XXH32_update blocks heap))))
      as [Heq | Hne]; cbn [negb]; eexists;
      repeat (split; [first [eassumption | reflexivity] | ]).
    + split; [ | split; [reflexivity | reflexivity]].
      split; [discriminate | ]. intros [_ Hc]. contradiction.
    + split; [ | split; [congruence | ]].
      * split; auto.
      * intros ->. contradiction.
  - eexists. repeat (split; [first [eassumption | reflexivity] | ]).
    split; [ | split; reflexivity].
    split; [discriminate | ]. intros [Hc _]. discriminate.
Qed.

End FramesWithLaws.

(** ** Skipping a block *)

Section Skip.

Context {L : LZ4Lib} {X : XXHashLib}.

(** The guard of [lz4_skip] is the guard of [lz4_decompress]. *)
Lemma skip_block_checksum_guard (l : lz4_s) (src : list byte) (src_len : Z) :
  skip_block_checksum l src src_len
  = match check_block_checksum l src src_len with
    | Some (inl _) => Some None
    | Some (inr n) => Some (Some n)
    | None => None
    end.
Proof.
  unfold skip_block_checksum, check_block_checksum.
  destruct (block_checksum l); [ | reflexivity].
  destruct (load src (src_len - 4) 4); [ | reflexivity].
  destruct (read_little_endian_32 l0); [ | reflexivity].
  destruct (load src 0 (to_uint32 (src_len - 4))); [ | reflexivity].
  destruct (negb _); reflexivity.
Qed.

(** X10. In a session with the content-checksum flag [lz4_skip] does what
    [lz4_decompress] does on a compressed block, whatever its [compressed]
    argument says: the same bytes stored, the same session afterwards, and
    [true] exactly when [lz4_decompress] returns a non-negative count.  A
    block stored raw is handed to the decompressor all the same. *)
Theorem lz4_skip_decodes_as_compressed :
  forall (l : lz4_s) (src : list byte) (src_len dest_len : Z)
         (compressed : bool),
    content_checksum l = true ->
    lz4_skip l src src_len dest_len compressed
    = match lz4_decompress l src src_len dest_len true with
      | Some (r, dest, l') => Some (0 <=? r, dest, l')
      | None => None
      end.
Proof.
  intros l src src_len dest_len compressed Hcc.
  unfold lz4_skip, lz4_decompress. rewrite skip_block_checksum_guard.
  destruct (check_block_checksum l src src_len) as [[e | n] | ] eqn:G;
    [ | | reflexivity].
  - assert (e = -500).
    { unfold check_block_checksum in G.
      destruct (block_checksum l); [ | discriminate].
      destruct (load src (src_len - 4) 4); [ | discriminate].
      destruct (read_little_endian_32 l0); [ | discriminate].
      destruct (load src 0 (to_uint32 (src_len - 4))); [ | discriminate].
      destruct (negb _); congruence. }
    subst e. reflexivity.
  - unfold decompress_payload. rewrite Hcc.
    destruct (LZ4_decompress_safe src (to_int n) (to_int dest_len))
      as [r dest].
    destruct (Z.ltb_spec r 0).
    + destruct (Z.leb_spec 0 r); [lia | reflexivity].
    + destruct (load dest 0 r); [ | reflexivity].
      destruct (Z.leb_spec 0 r); [reflexivity | lia].
Qed.

(** X11. In a session without the content-checksum flag [lz4_skip] decodes
    nothing: it stores no byte, leaves the session as it is and returns
    [true] for every payload, or, with the block-checksum flag, for every
    payload whose trailing checksum matches. *)
Theorem lz4_skip_checks_trailer_only :
  forall (l : lz4_s) (payload trailer rest : list byte)
         (stored dest_len : Z) (compressed : bool),
    content_checksum l = false ->
    length trailer = 4%nat -> len payload + 4 < 2 ^ 32 ->
    read_little_endian_32 trailer = Some stored ->
    (block_checksum l = true ->
     lz4_skip l (payload ++ trailer ++ rest) (len payload + 4) dest_len
       compressed
     = Some (to_uint32 (XXH32 payload 0) =? stored, [], l))
    /\ (block_checksum l = false ->
        forall src src_len,
          lz4_skip l src src_len dest_len compressed = Some (true, [], l)).
Proof.
  intros l payload trailer rest stored dest_len compressed Hcc Ht Hsmall Hread.
  split.
  - intros Hbc. unfold lz4_skip. rewrite skip_block_checksum_guard.
    rewrite (check_block_checksum_on l payload trailer rest stored
               Hbc Ht Hsmall Hread).
    destruct (to_uint32 (XXH32 payload 0) =? stored); cbn [negb];
      [rewrite Hcc | ]; reflexivity.
  - intros Hbc src src_len. unfold lz4_skip, skip_block_checksum.
    rewrite Hbc, Hcc. reflexivity.
Qed.

End Skip.

(** ** The one-shot helpers *)

Section OneShot.

Context {L : LZ4Lib} {O : LZ4OneShot L}.
Context {Laws : LZ4Laws L} {OLaws : LZ4OneShotLaws L O}.

(** The compressor step of [lz4_compress_appending_to_buffer]
    (lz4.c:419-433) keeps the promise. *)
Lemma oneshot_compress_promise (src : list byte) (n cap level : Z) :
  0 <= n <= len src -> n < 2 ^ 31 ->
  let '(r, out) :=
    if level <=? 0 then LZ4_compress_default src n cap
    else
      let '(k, out, _) :=
        LZ4_compress_HC_extStateHC
          (LZ4_setCompressionLevel LZ4_initStreamHC level) src n cap level in
      (k, out) in
  compress_promise src n cap r out.
Proof.
  intros Hn Hsmall. destruct (level <=? 0).
  - apply compress_default_ok; assumption.
  - pose proof (compress_HC_extStateHC_ok
                  (LZ4_setCompressionLevel LZ4_initStreamHC level) src n cap
                  level (setCompressionLevel_ok _ _ initStreamHC_ok) Hn Hsmall)
      as H.
    destruct (LZ4_compress_HC_extStateHC _ _ _ _ _) as [[k out] s]. exact H.
Qed.

(** X12. [lz4_compress_appending_to_buffer] only ever appends: it always
    returns, the bytes the buffer held stay in front, the buffer grows by
    exactly the count returned, and a result of 0 (the allocation or the
    compression failed) leaves the buffer as it was. *)
Theorem lz4_compress_appending_to_buffer_appends :
  forall (dest src : list byte) (src_size level : Z),
    0 <= src_size <= len src -> src_size < 2 ^ 31 ->
    exists r stored,
      lz4_compress_appending_to_buffer dest src src_size level
      = Some (r, dest ++ stored)
      /\ 0 <= r /\ len stored = r
      /\ (r = 0 -> dest ++ stored = dest).
Proof.
  intros dest src n level Hn Hsmall.
  unfold lz4_compress_appending_to_buffer.
  destruct (aml_buffer_append_ualloc_ok dest _); cbn [negb].
  2:{ exists 0, []. rewrite app_nil_r. repeat split; lia. }
  pose proof (oneshot_compress_promise src n
                (to_int (LZ4_compressBound n)) level Hn Hsmall) as Hp.
  destruct (if level <=? 0 then _ else _) as [r out].
  destruct Hp as [[-> | (Hr & Hout & _)] _].
  - exists 0, []. cbn [Z.leb Z.compare]. rewrite app_nil_r.
    unfold len. rewrite Nat2Z.id, firstn_all. repeat split; lia.
  - destruct (Z.leb_spec r 0); [lia | ].
    assert (Hl : load out 0 r = Some out)
      by (rewrite <- Hout; apply load_all).
    rewrite Hl.
    exists r, out. repeat split; lia.
Qed.

Section FixedBuffer.

Context {DLaws : LZ4DecoderLaws L}.

(** X13. What [lz4_compress_appending_to_buffer] appended,
    [lz4_decompress_into_fixed_buffer] accepts for exactly one destination
    size among the non-negative ones: it returns [true] exactly when
    [dest_size] equals [src_size], and whenever the destination has at least
    [src_size] bytes the bytes it stores are the input (so a larger
    destination gets the input and [false]).  A negative [dest_size] is left
    out. *)
Theorem appended_bytes_decompress_into_fixed_buffer :
  forall (dest src later buf : list byte) (src_size level r dest_size : Z),
    0 <= src_size <= len src -> src_size < 2 ^ 31 ->
    lz4_compress_appending_to_buffer dest src src_size level = Some (r, buf) ->
    0 < r ->
    0 <= dest_size < 2 ^ 31 ->
    fst (lz4_decompress_into_fixed_buffer dest_size
           (skipn (length dest) (buf ++ later)) r)
    = (dest_size =? src_size)
    /\ (src_size <= dest_size ->
        snd (lz4_decompress_into_fixed_buffer dest_size
               (skipn (length dest) (buf ++ later)) r)
        = firstn (Z.to_nat src_size) src).
Proof.
  intros dest src later buf n level r dest_size Hn Hsmall H Hr Hd.
  unfold lz4_compress_appending_to_buffer in H.
  destruct (aml_buffer_append_ualloc_ok dest _); cbn [negb] in H.
  2:{ injection H as <- <-. lia. }
  pose proof (oneshot_compress_promise src n
                (to_int (LZ4_compressBound n)) level Hn Hsmall) as Hp.
  destruct (if level <=? 0 then _ else _) as [k out].
  destruct (Z.leb_spec k 0); [injection H as <- <-; lia | ].
  destruct Hp as [[-> | (Hk & Hout & Hdec)] _]; [lia | ].
  assert (Hl : load out 0 k = Some out)
    by (rewrite <- Hout; apply load_all).
  rewrite Hl in H.
  injection H as <- <-.
  rewrite <- app_assoc, skipn_app, skipn_all, Nat.sub_diag.
  cbn [app skipn].
  unfold lz4_decompress_into_fixed_buffer.
  destruct (Z.le_gt_cases n dest_size) as [Hfit | Hover].
  - rewrite (Hdec later dest_size ltac:(lia)).
    rewrite Z.eqb_sym.
    destruct (dest_size =? n); split; reflexivity.
  - pose proof (decompress_overflow_fails (out ++ later) k dest_size n n
                  (firstn (Z.to_nat n) src) (Hdec later n ltac:(lia))
                  ltac:(lia) Hover) as Hneg.
    destruct (LZ4_decompress_safe (out ++ later) k dest_size) as [q w].
    cbn [fst] in Hneg.
    destruct (Z.eqb_spec q dest_size); [lia | ].
    destruct (Z.eqb_spec dest_size n); [lia | ].
    cbn [negb fst]. split; [reflexivity | lia].
Qed.

End FixedBuffer.

(** X14. When the allocation succeeds, [lz4_compress_appending_to_buffer]
    does not fail on a non-empty input whose bound is an [int]: it reserves
    [LZ4_compressBound] bytes, which the compressor promises to suffice, and
    returns a positive count. *)
Theorem lz4_compress_appending_to_buffer_succeeds :
  forall (dest src : list byte) (src_size level : Z),
    0 < src_size <= len src -> src_size < 2 ^ 31 ->
    0 < LZ4_compressBound src_size < 2 ^ 31 ->
    aml_buffer_append_ualloc_ok dest
      (LZ4_compressBound src_size
       + (if 0 <? level then sizeof_LZ4_streamHC_t + 8 else 0)) = true ->
    exists r stored,
      lz4_compress_appending_to_buffer dest src src_size level
      = Some (r, dest ++ stored)
      /\ 0 < r <= LZ4_compressBound src_size /\ len stored = r.
Proof.
  intros dest src n level Hn Hsmall Hb Halloc.
  unfold lz4_compress_appending_to_buffer.
  rewrite (to_int_small (LZ4_compressBound n)) by lia.
  rewrite Halloc. cbn [negb].
  pose proof (oneshot_compress_promise src n (LZ4_compressBound n) level
                ltac:(lia) Hsmall) as Hp.
  destruct (if level <=? 0 then _ else _) as [r out].
  destruct Hp as [Hp Hsucc].
  specialize (Hsucc ltac:(lia) ltac:(lia)).
  destruct Hp as [-> | (Hr & Hout & _)]; [lia | ].
  destruct (Z.leb_spec r 0); [lia | ].
  assert (Hl : load out 0 r = Some out)
    by (rewrite <- Hout; apply load_all).
  rewrite Hl.
  exists r, out. repeat split; lia.
Qed.

End OneShot.

Lemma demo_decoder_laws : LZ4DecoderLaws Demo.lz4.
Proof.
  constructor. intros p k dcap dcap' n data.
  cbn [LZ4_decompress_safe Demo.lz4]. unfold Demo.decompress.
  destruct (firstn (Z.to_nat k) p) as [ | b0 t].
  { intros Heq. injection Heq as <- <-. lia. }
  destruct b0;
    try (intros Heq; injection Heq as <- <-; lia).
  - destruct (Z.leb_spec (len t) dcap'); intros Heq; injection Heq as <- <-;
      intros Hn Hlt; [ | lia].
    destruct (Z.leb_spec (len t) dcap); [lia | ]. cbn. lia.
  - do 5 (destruct t as [ | ? t]; [intros Heq; injection Heq as <- <-; lia | ]).
    destruct t; [ | intros Heq; injection Heq as <- <-; lia].
    destruct (read_little_endian_32 [b0; b1; b2; b3]) as [q | ];
      [ | intros Heq; injection Heq as <- <-; lia].
    destruct (Z.leb_spec q dcap'); intros Heq; injection Heq as <- <-;
      intros Hn Hlt; [ | lia].
    destruct (Z.leb_spec q dcap); [lia | ]. cbn. lia.
Qed.

Lemma demo_oneshot_laws : LZ4OneShotLaws Demo.lz4 demo_oneshot.
Proof.
  constructor.
  - intros src n cap Hn Hsmall.
    pose proof (demo_compress_promise 0 src n cap Hn Hsmall) as H.
    cbn [LZ4_compress_default demo_oneshot]. unfold demo_compress_default.
    destruct (Demo.compress 0 src n cap) as [[r out] s']. exact H.
  - intros s src n cap lvl _ Hn Hsmall.
    pose proof (demo_compress_promise s src n cap Hn Hsmall) as H.
    cbn [LZ4_compress_HC_extStateHC demo_oneshot]. unfold demo_compress_HC.
    destruct (Demo.compress s src n cap) as [[r out] s']. exact H.
Qed.

(** ** The properties on concrete inputs *)

#[local] Existing Instances Demo.lz4 Demo.xxhash.

Lemma roundtrip_blocks_witness :
  exists d wires c' d',
    _lz4_init_decompress (L := Demo.lz4) (X := Demo.xxhash)
      Demo.junk_header Demo.junk_xxh
      (fst (lz4_get_header (Demo.session true true)))
      (snd (lz4_get_header (Demo.session true true))) = Some d
    /\ compress_blocks (Demo.session true true) Demo.three_blocks 65545
       = Some (wires, c')
    /\ decompress_blocks d wires (lz4_block_size d)
       = Some (Demo.three_blocks, d').
Proof.
  apply (@roundtrip_blocks Demo.lz4 Demo.xxhash demo_laws
           Demo.junk_xxh 1 s64kb true true Demo.junk_header Demo.junk_xxh
           Demo.three_blocks 65545).
  - right. exists 0xdeadbeef, []. reflexivity.
  - repeat constructor; vm_compute; discriminate.
  - vm_compute. split; [discriminate | reflexivity].
Defined.

(** A decompression session without block checksum has
    [block_header_size = 0], not 4. *)
Lemma block_header_size_decompress_counterexample :
  exists l,
    _lz4_init_decompress (L := Demo.lz4) (X := Demo.xxhash)
      Demo.junk_header Demo.junk_xxh _64kb 7 = Some l
    /\ block_header_size l <> 4 + (if block_checksum l then 4 else 0)
    /\ block_header_size l
       <> block_header_size
            (_lz4_init (L := Demo.lz4) (X := Demo.xxhash)
               Demo.junk_xxh 1 s64kb (block_checksum l)
               (content_checksum l)).
Proof.
  eexists. split; [reflexivity | ]. split; vm_compute; discriminate.
Defined.

Lemma block_header_size_by_mode_witness :
  exists l,
    _lz4_init_decompress (L := Demo.lz4) (X := Demo.xxhash)
      Demo.junk_header Demo.junk_xxh b_64kb 7 = Some l
    /\ (block_header_size (Demo.session true false) = 4 + 4
        /\ block_header_size l = (if block_checksum l then 4 else 0)
        /\ (block_checksum l = true ->
            block_header_size (Demo.session true false)
            = 4 + block_header_size l)).
Proof.
  eexists. split; [reflexivity | ].
  apply (@block_header_size_by_mode Demo.lz4 Demo.xxhash
           Demo.junk_xxh 1 s64kb true false Demo.junk_header Demo.junk_xxh
           b_64kb 7).
  reflexivity.
Defined.

(** The digest a compression session stores at the end of a one-byte stream
    is not the hash of that byte: it starts from the content of the
    allocation. *)
Example lz4_init_digest_differs :
  exists ret wire l,
    lz4_compress_block (Demo.session false true) [x41] 1 65541
    = Some (ret, wire, l)
    /\ lz4_finish l []
       <> Some (8, write_little_endian_32 0
                  ++ write_little_endian_32 (to_uint32 (XXH32 [x41] 0))).
Proof.
  do 3 eexists. split; [reflexivity | ].
  vm_compute. discriminate.
Qed.

(** Two bytes that do not compress, in a buffer of ten bytes: enough for the
    raw block with its checksum, not for the compressed form. *)
Lemma does_not_fit_witness :
  exists trailer l',
    lz4_compress_block (Demo.session true false) [x41; x42] 2 10
    = Some (to_uint32 (0 + block_header_size (Demo.session true false)),
            write_little_endian_32 0 ++ [] ++ trailer, l')
    /\ trailer
       = (if block_checksum (Demo.session true false)
          then write_little_endian_32 (to_uint32 (XXH32 [] 0))
          else [])
    /\ read_little_endian_32 (write_little_endian_32 0 ++ [] ++ trailer)
       = Some 0.
Proof.
  eapply (@does_not_fit_is_not_stored_raw Demo.lz4 Demo.xxhash
            (Demo.session true false) _ [x41; x42] _ 2 10).
  - unfold len. simpl. lia.
  - reflexivity.
Defined.

Lemma raw_fallback_witness :
  exists field trailer l',
    lz4_compress_block (Demo.session false false) [x41; x42] 2 65541
    = Some (to_uint32 (2 + block_header_size (Demo.session false false)),
            field ++ firstn (Z.to_nat 2) [x41; x42] ++ trailer, l')
    /\ field = write_little_endian_32 (Z.lor 2 0x80000000)
    /\ read_little_endian_32
         (field ++ firstn (Z.to_nat 2) [x41; x42] ++ trailer)
       = Some (Z.lor 2 0x80000000)
    /\ Z.testbit (Z.lor 2 0x80000000) 31 = true
    /\ Z.land (Z.lor 2 0x80000000) 0x7fffffff = 2
    /\ trailer
       = (if block_checksum (Demo.session false false)
          then write_little_endian_32
                 (to_uint32 (XXH32 (firstn (Z.to_nat 2) [x41; x42]) 0))
          else []).
Proof.
  eapply (@raw_fallback_when_no_gain Demo.lz4 Demo.xxhash
            (Demo.session false false) _ [x41; x42] _ 2 65541 3).
  - unfold len. simpl. lia.
  - lia.
  - reflexivity.
  - lia.
Defined.


Lemma lz4_finish_by_mode_witness :
  exists written,
    lz4_finish (Demo.session false true) [] = Some (8, written)
    /\ written
       = write_little_endian_32 0
         ++ write_little_endian_32
              (to_uint32 (XXH32_digest (xxh (Demo.session false true))))
    /\ len written = 8.
Proof.
  apply (proj1 (@lz4_finish_by_mode Demo.lz4 Demo.xxhash
                  (Demo.session false true) [])).
  discriminate.
Defined.

Lemma content_accumulator_witness :
  exists ret wire l',
    lz4_compress_block (Demo.session false true) [x41; x42] 2 65541
    = Some (ret, wire, l')
    /\ xxh l' = XXH32_update (xxh (Demo.session false true)) [x41; x42].
Proof.
  do 3 eexists. split; [reflexivity | ].
  refine (proj1 (@content_accumulator_once_per_block Demo.lz4 Demo.xxhash)
            (Demo.session false true) [x41; x42] 2 65541 _ _ _ _).
  reflexivity.
Defined.

Lemma raw_copy_ignores_dest_len_witness :
  lz4_decompress (Demo.reader false false) [x01; x02; x03; x04; x05] 5 2 false
  = Some (5, firstn (Z.to_nat 5) [x01; x02; x03; x04; x05],
          content_update (Demo.reader false false)
            (firstn (Z.to_nat 5) [x01; x02; x03; x04; x05]))
  /\ len (firstn (Z.to_nat 5) [x01; x02; x03; x04; x05]) = 5
  /\ 5 = (if block_checksum (Demo.reader false false)
          then to_uint32 (5 - 4) else 5).
Proof.
  apply (@raw_copy_ignores_dest_len Demo.lz4 Demo.xxhash
           (Demo.reader false false) [x01; x02; x03; x04; x05] 5 5 2).
  - reflexivity.
  - unfold len. simpl. lia.
  - lia.
Defined.

(** ** The further properties on concrete inputs *)

Lemma lz4_check_header_fields_witness :
  exists r,
    lz4_check_header (Some Demo.junk_header) cb_256kb 7 = Some r
    /\ (h_header r = firstn 7 cb_256kb
        /\ h_block_checksum r = Z.testbit (Z_of_byte (idx cb_256kb 4)) 4
        /\ h_content_checksum r = Z.testbit (Z_of_byte (idx cb_256kb 4)) 2
        /\ h_block_size r = 2 ^ (8 + 2 * (Z_of_byte (idx cb_256kb 5) / 16))
        /\ h_compressed_size r
           = to_uint32 (LZ4_compressBound (h_block_size r))).
Proof.
  eexists. split; [reflexivity | ].
  apply (@lz4_check_header_fields Demo.lz4 Demo.junk_header _ cb_256kb 7).
  reflexivity.
Defined.

(** A 64KB descriptor opens a session whose [size] is the [s4mb] the
    caller's record happened to hold. *)
Lemma decompress_session_size_not_set_witness :
  exists l,
    _lz4_init_decompress Demo.junk_header Demo.junk_xxh _64kb 7 = Some l
    /\ (size l = s4mb
        /\ forall h',
             lz4_check_header (Some Demo.junk_header) _64kb 7 = Some h' ->
             h_size h' = s4mb).
Proof.
  eexists. split; [reflexivity | ].
  apply (@decompress_session_size_not_set Demo.lz4 Demo.xxhash
           Demo.junk_header Demo.junk_xxh _64kb 7).
  reflexivity.
Defined.

Lemma recognized_descriptor_is_emitted_witness :
  exists r,
    lz4_check_header (Some Demo.junk_header) c_1mb 7 = Some r
    /\ exists sz,
         lz4_get_header
           (_lz4_init Demo.junk_xxh 1 sz (h_block_checksum r)
              (h_content_checksum r))
         = (firstn 7 c_1mb, 7)
         /\ block_size
              (_lz4_init Demo.junk_xxh 1 sz (h_block_checksum r)
                 (h_content_checksum r))
            = h_block_size r
         /\ compressed_size
              (_lz4_init Demo.junk_xxh 1 sz (h_block_checksum r)
                 (h_content_checksum r))
            = h_compressed_size r.
Proof.
  eexists. split; [reflexivity | ].
  apply (@recognized_descriptor_is_emitted Demo.lz4 Demo.xxhash
           Demo.junk_header _ c_1mb 7 Demo.junk_xxh 1).
  reflexivity.
Defined.

Lemma lz4_compress_block_at_most_raw_witness :
  exists ret wire l',
    lz4_compress_block (Demo.session true true) [x41; x42] 2 65545
    = Some (ret, wire, l')
    /\ (len wire = ret
        /\ block_header_size (Demo.session true true) <= ret
           <= 2 + block_header_size (Demo.session true true)).
Proof.
  do 3 eexists. split; [reflexivity | ].
  eapply (@lz4_compress_block_at_most_raw Demo.lz4 Demo.xxhash
            (Demo.session true true) _ [x41; x42] _ 2 65545).
  - reflexivity.
  - lia.
  - reflexivity.
Defined.

(** Two bytes that do not compress and a buffer of ten bytes: the block
    stored stays within the buffer. *)
Lemma lz4_compress_block_within_dest_len_witness :
  exists ret wire l',
    lz4_compress_block (Demo.session true false) [x41; x42] 2 10
    = Some (ret, wire, l')
    /\ len wire = ret /\ ret <= 10.
Proof.
  apply (@lz4_compress_block_within_dest_len Demo.lz4 Demo.xxhash demo_laws
           (Demo.session true false) [x41; x42] 2 10).
  - unfold compress_session_ok. simpl. split; [lia | exact I].
  - reflexivity.
  - unfold len. simpl. lia.
  - lia.
  - simpl. lia.
Defined.

(** The empty block: its length field is not zero. *)
Lemma length_field_tells_block_from_end_witness :
  exists ret wire l' f,
    lz4_compress_block (Demo.session true true) [] (len []) 65545
    = Some (ret, wire, l')
    /\ read_little_endian_32 wire = Some f /\ f <> 0
    /\ ret = 4 + Z.land f 0x7fffffff
             + (if block_checksum (Demo.session true true) then 4 else 0)
    /\ forall dest, exists k marker,
         lz4_finish l' dest = Some (k, marker)
         /\ read_little_endian_32 marker = Some 0.
Proof.
  apply (@length_field_tells_block_from_end Demo.lz4 Demo.xxhash demo_laws
           (Demo.session true true) [] 65545).
  - unfold compress_session_ok. simpl. split; [lia | exact I].
  - reflexivity.
  - unfold len. simpl. lia.
  - unfold len. simpl. lia.
  - unfold len. simpl. lia.
  - simpl. lia.
Defined.

Lemma frame_finish_roundtrip_witness :
  exists d wires c' d' k marker r,
    _lz4_init_decompress Demo.junk_header Demo.junk_xxh
      (fst (lz4_get_header (Demo.session true true)))
      (snd (lz4_get_header (Demo.session true true))) = Some d
    /\ compress_blocks (Demo.session true true) Demo.three_blocks 65545
       = Some (wires, c')
    /\ decompress_blocks d wires (lz4_block_size d)
       = Some (Demo.three_blocks, d')
    /\ lz4_finish c' [] = Some (k, marker)
    /\ read_little_endian_32 marker = Some 0
    /\ lz4_finish d' (skipn 4 marker) = Some (r, [])
    /\ (r = -500 <->
        true = true
        /\ to_uint32 (XXH32_digest
                        (fold_left XXH32_update Demo.three_blocks
                           (XXH32_reset 0)))
           <> to_uint32 (XXH32_digest
                           (fold_left XXH32_update Demo.three_blocks
                              Demo.junk_xxh)))
    /\ (r <> -500 -> r = 0)
    /\ (Demo.junk_xxh = XXH32_reset 0 -> r = 0).
Proof.
  apply (@frame_finish_roundtrip Demo.lz4 Demo.xxhash demo_laws
           Demo.junk_xxh 1 s64kb true true Demo.junk_header Demo.junk_xxh
           Demo.three_blocks 65545).
  - right. exists 0xdeadbeef, []. reflexivity.
  - repeat constructor; vm_compute; discriminate.
  - vm_compute. split; [discriminate | reflexivity].
Defined.

(** A block stored raw, skipped in a session with content checksum: the
    raw bytes go to the decompressor. *)
Lemma lz4_skip_decodes_as_compressed_witness :
  lz4_skip (Demo.reader false true) [x41; x42] 2 65536 false
  = match lz4_decompress (Demo.reader false true) [x41; x42] 2 65536 true with
    | Some (r, dest, l') => Some (0 <=? r, dest, l')
    | None => None
    end.
Proof.
  apply (@lz4_skip_decodes_as_compressed Demo.lz4 Demo.xxhash
           (Demo.reader false true) [x41; x42] 2 65536 false).
  reflexivity.
Defined.

Lemma lz4_skip_checks_trailer_only_witness :
  (block_checksum (Demo.reader true false) = true ->
   lz4_skip (Demo.reader true false)
     ([x41] ++ [x00; x00; x00; x00] ++ []) (len [x41] + 4) 65536 true
   = Some (to_uint32 (XXH32 [x41] 0) =? 0, [], Demo.reader true false))
  /\ (block_checksum (Demo.reader true false) = false ->
      forall src src_len,
        lz4_skip (Demo.reader true false) src src_len 65536 true
        = Some (true, [], Demo.reader true false)).
Proof.
  apply (@lz4_skip_checks_trailer_only Demo.lz4 Demo.xxhash
           (Demo.reader true false) [x41] [x00; x00; x00; x00] [] 0 65536
           true).
  - reflexivity.
  - reflexivity.
  - unfold len. simpl. lia.
  - reflexivity.
Defined.

Lemma lz4_compress_appending_to_buffer_appends_witness :
  exists r stored,
    lz4_compress_appending_to_buffer [x01] [x41; x42] 2 0
    = Some (r, [x01] ++ stored)
    /\ 0 <= r /\ len stored = r
    /\ (r = 0 -> [x01] ++ stored = [x01]).
Proof.
  apply (@lz4_compress_appending_to_buffer_appends Demo.lz4 demo_oneshot
           demo_laws demo_oneshot_laws [x01] [x41; x42] 2 0).
  - unfold len. simpl. lia.
  - lia.
Defined.

(** Twelve equal bytes appended at level 1 after one byte already in the
    buffer, then decoded into a buffer of twelve bytes. *)
Lemma appended_bytes_decompress_into_fixed_buffer_witness :
  exists r buf,
    lz4_compress_appending_to_buffer [x01] (repeat x41 12) 12 1
    = Some (r, buf)
    /\ (fst (lz4_decompress_into_fixed_buffer 12
               (skipn (length [x01]) (buf ++ [x09])) r)
        = (12 =? 12)
        /\ (12 <= 12 ->
            snd (lz4_decompress_into_fixed_buffer 12
                   (skipn (length [x01]) (buf ++ [x09])) r)
            = firstn (Z.to_nat 12) (repeat x41 12))).
Proof.
  do 2 eexists. split; [reflexivity | ].
  apply (@appended_bytes_decompress_into_fixed_buffer Demo.lz4 demo_oneshot
           demo_laws demo_oneshot_laws demo_decoder_laws
           [x01] (repeat x41 12) [x09] _ 12 1 _ 12).
  - unfold len. simpl. lia.
  - lia.
  - reflexivity.
  - reflexivity.
  - lia.
Defined.

Lemma lz4_compress_appending_to_buffer_succeeds_witness :
  exists r stored,
    lz4_compress_appending_to_buffer [x01] [x41; x42] 2 1
    = Some (r, [x01] ++ stored)
    /\ 0 < r <= LZ4_compressBound 2 /\ len stored = r.
Proof.
  apply (@lz4_compress_appending_to_buffer_succeeds Demo.lz4 demo_oneshot
           demo_laws demo_oneshot_laws [x01] [x41; x42] 2 1).
  - unfold len. simpl. lia.
  - lia.
  - simpl. lia.
  - reflexivity.
Defined.
